(** * DSME plugin framework: module base (modulebase.c)

    A shallow embedding of the module registry, the message-handler
    registry and the message queue of [modulebase.c], with the properties
    of its natural-language specification stated over that embedding.

    Conventions.
    - C unsigned 32-bit values are [Z] with the wrap-around written out
      ([wrap32]); [int] priorities are [Z].
    - A [GSList*] is the Rocq list it heads: [[]] is the NULL list, a node
      pointer is the suffix starting at that node.
    - A [module_t*] is the record it points to together with its address;
      pointer comparison compares addresses.
    - The loader, the allocator, the socket layer and the code of the
      plugins are collaborators: they are gathered in an environment
      [env], and what the program does to them is recorded in a log. *)

From Stdlib Require Import ZArith Lia.
From Stdlib.Strings Require Import Ascii Byte.
From stdpp Require Import base list option strings sorting.
From Equations Require Import Equations.
From Equations.Prop Require Import Logic.

Local Open Scope Z_scope.

(** ** Machine integers *)

Module Int.

(** Value range of [u_int32_t]. *)
Definition u32 (z : Z) : Prop := 0 <= z < 2 ^ 32.

Definition u32b (z : Z) : bool := (0 <=? z) && (z <? 2 ^ 32).

(** Conversion to [u_int32_t]: reduction modulo 2^32. *)
Definition wrap32 (z : Z) : Z := z mod 2 ^ 32.

(** Conversion of an unsigned 32-bit value to [gint] (two's complement). *)
Definition to_gint (z : Z) : Z :=
  if wrap32 z <? 2 ^ 31 then wrap32 z else wrap32 z - 2 ^ 32.

End Int.
Export Int.

(** ** GLib singly-linked lists

    The GLib functions [modulebase.c] calls, after GLib's [gslist.c]. *)

Module GSList.
Section GSList.
Context {A : Type}.

(** [g_slist_next]: the node after [node]. *)
Definition g_slist_next (node : list A) : list A := drop 1 node.

(** [g_slist_append]: adds [data] at the end of the list. *)
Definition g_slist_append (l : list A) (data : A) : list A := l ++ [data].

(** [g_slist_delete_link]: removes the node [link] (a suffix of [l])
    from [l]; the nodes before it and after it are kept in order. *)
Definition g_slist_delete_link (l link : list A) : list A :=
  take (length l - length link)%nat l ++ drop 1 link.

(** [g_slist_find]: the first node whose data is [data] ([same] is the
    pointer comparison), or NULL. *)
Fixpoint g_slist_find {B : Type} (same : A -> B -> bool)
    (l : list A) (data : B) : list A :=
  match l with
  | [] => []
  | x :: rest => if same x data then l else g_slist_find same rest data
  end.

(** [g_slist_find_custom]: the first node for which [func] returns 0,
    or NULL. *)
Fixpoint g_slist_find_custom {B : Type} (l : list A) (data : B)
    (func : A -> B -> Z) : list A :=
  match l with
  | [] => []
  | x :: rest =>
      if func x data =? 0 then l else g_slist_find_custom rest data func
  end.

(** [g_slist_insert_sorted_with_data]: walks past the nodes for which
    [func data node] is positive and links the new node there (at the
    end when all are positive). *)
Fixpoint g_slist_insert_sorted_with_data (l : list A) (data : A)
    (func : A -> A -> Z) : list A :=
  match l with
  | [] => [data]
  | x :: rest =>
      if func data x >? 0
      then x :: g_slist_insert_sorted_with_data rest data func
      else data :: l
  end.

End GSList.
End GSList.
Export GSList.

(** ** Data model *)

(** Loaded module information ([struct module_t]); [addr] is the address
    of the record, by which the program identifies a module. *)
Record module_t := {
  addr : N;
  name : string;
  priority : Z;
  handle : option N
}.

(** [a == b] on [module_t*]. *)
Definition module_eqb (a b : module_t) : bool := N.eqb (addr a) (addr b).

(** [a == b] on nullable [module_t*]. *)
Definition module_ptr_eqb (a b : option module_t) : bool :=
  match a, b with
  | None, None => true
  | Some x, Some y => module_eqb x y
  | _, _ => false
  end.

(** Sender of a queued message ([struct endpoint_t]); [conn] is the
    address of a socket connection. *)
Record endpoint_t := {
  module : option module_t;
  conn : option N
}.

(** Modelled from the spec: the message header of [dsme/messages.h], which
    is not part of the sources. A message is a fixed-size header carrying
    two length fields and a type identifier, followed by a variable-length
    payload; [line_size_] is the spec's total size, [size_] its declared
    size, [type_] its type identifier, [payload] the bytes after the
    header. *)
Record dsmemsg_generic_t := {
  line_size_ : Z;
  size_ : Z;
  type_ : Z;
  payload : list byte
}.

(** Modelled from the spec: [sizeof(dsmemsg_generic_t)], the size of the
    fixed header; its three fields are taken to be 32 bits wide. The
    properties below only use that it is not negative. *)
Definition sizeof_dsmemsg_generic_t : Z := 12.

(** Modelled from the spec: [dsmemsg_id] of [dsme/protocol.h] reads the
    type identifier at its fixed offset. *)
Definition dsmemsg_id (msg : dsmemsg_generic_t) : Z := type_ msg.

(** Registered handler information ([msg_handler_info_t]); [callback] is
    the address of the handler function, [0] for NULL. *)
Record msg_handler_info_t := {
  msg_type : Z;
  msg_size : Z;
  owner : module_t;
  callback : N
}.

(** Modelled from the spec: an entry of a module's handler table
    ([module_fn_info_t] of [dsme/modulebase.h]): message type, expected
    size, callback. *)
Record module_fn_info_t := {
  fn_msg_type : Z;
  fn_msg_size : Z;
  fn_callback : N
}.

(** Queued message ([queued_msg_t]). *)
Record queued_msg_t := {
  from : endpoint_t;
  to : option module_t;
  data : dsmemsg_generic_t
}.

(** ** Plugin code, collaborators and the observation log *)

(** What the code of a plugin can ask of the module base while it runs:
    the queueing entry points of [modulebase.c]. They all return [void],
    so a run of plugin code is described by the calls it makes, in order.
    Plugin code is taken not to register handlers, load or unload
    modules, or drain the queue while it runs: loading and unloading
    happen between drains, and a callback queues but does not drain.
    A NULL message is [None]; a NULL [extra] is the empty byte list. *)
Inductive action :=
| call_broadcast_internally (msg : option dsmemsg_generic_t)
| call_broadcast_internally_from_socket
    (msg : option dsmemsg_generic_t) (c : option N)
| call_broadcast_with_extra
    (msg : option dsmemsg_generic_t) (extra_size : Z) (extra : list byte)
| call_broadcast (msg : option dsmemsg_generic_t)
| call_endpoint_send_with_extra (recipient : option endpoint_t)
    (msg : option dsmemsg_generic_t) (extra_size : Z) (extra : list byte)
| call_endpoint_send (recipient : option endpoint_t)
    (msg : option dsmemsg_generic_t).

(** The collaborators of the module base. [world] is the private state of
    the loaded plugins.
    - [malloc k] is the result of the [k]-th allocation request of the
      run: [None] for NULL, [Some a] for a block at address [a];
    - [dlopen] resolves a path to a code handle;
    - [dlsym_module_init], [dlsym_module_fini], [dlsym_message_handlers]
      are the three optional entry points of a loaded code;
    - [handler_fn f] is the code at the function address [f]. *)
Record env (world : Type) := {
  malloc : nat -> option N;
  dlopen : string -> option N;
  dlsym_module_init : N -> option (module_t -> world -> world * list action);
  dlsym_module_fini : N -> option (world -> world * list action);
  dlsym_message_handlers : N -> option (list module_fn_info_t);
  handler_fn :
    N -> endpoint_t -> dsmemsg_generic_t -> world -> world * list action
}.
Arguments malloc {world}.
Arguments dlopen {world}.
Arguments dlsym_module_init {world}.
Arguments dlsym_module_fini {world}.
Arguments dlsym_message_handlers {world}.
Arguments handler_fn {world}.

(** What the program does, in the order it does it. The log is written,
    never read, by the program. *)
Inductive event :=
| EvQueued (q : queued_msg_t)
| EvHandle (q : queued_msg_t)
| EvCallback (handler : msg_handler_info_t)
    (sender : endpoint_t) (msg : dsmemsg_generic_t)
| EvFreeHandler (handler : msg_handler_info_t)
| EvModuleInit (m : module_t)
| EvModuleFini (m : module_t)
| EvDlclose (h : N)
| EvFreeModule (m : module_t)
| EvSockBroadcast
    (msg : option dsmemsg_generic_t) (extra_size : Z) (extra : list byte)
| EvSockSend (c : N)
    (msg : option dsmemsg_generic_t) (extra_size : Z) (extra : list byte)
| EvLog (level : Z).

Definition LOG_CRIT : Z := 2.
Definition LOG_DEBUG : Z := 7.

(** The global variables of [modulebase.c] ([modules], [callbacks],
    [message_queue], [currently_handling_module]), the state of the
    plugins, the number of allocation requests made so far, and the log. *)
Record state (world : Type) := {
  modules : list module_t;
  callbacks : list msg_handler_info_t;
  message_queue : list queued_msg_t;
  currently_handling_module : option module_t;
  plugins : world;
  mallocs : nat;
  trace : list event
}.
Arguments modules {world}.
Arguments callbacks {world}.
Arguments message_queue {world}.
Arguments currently_handling_module {world}.
Arguments plugins {world}.
Arguments mallocs {world}.
Arguments trace {world}.

Section ModuleBase.
Context {world : Type} (E : env world).

#[local] Abbreviation state := (state world).

Definition set_modules (l : list module_t) (st : state) : state :=
  {| modules := l; callbacks := callbacks st;
     message_queue := message_queue st;
     currently_handling_module := currently_handling_module st;
     plugins := plugins st; mallocs := mallocs st; trace := trace st |}.

Definition set_callbacks (l : list msg_handler_info_t) (st : state)
    : state :=
  {| modules := modules st; callbacks := l;
     message_queue := message_queue st;
     currently_handling_module := currently_handling_module st;
     plugins := plugins st; mallocs := mallocs st; trace := trace st |}.

Definition set_message_queue (l : list queued_msg_t) (st : state)
    : state :=
  {| modules := modules st; callbacks := callbacks st;
     message_queue := l;
     currently_handling_module := currently_handling_module st;
     plugins := plugins st; mallocs := mallocs st; trace := trace st |}.

Definition set_currently_handling_module (m : option module_t)
    (st : state) : state :=
  {| modules := modules st; callbacks := callbacks st;
     message_queue := message_queue st;
     currently_handling_module := m;
     plugins := plugins st; mallocs := mallocs st; trace := trace st |}.

Definition set_plugins (w : world) (st : state) : state :=
  {| modules := modules st; callbacks := callbacks st;
     message_queue := message_queue st;
     currently_handling_module := currently_handling_module st;
     plugins := w; mallocs := mallocs st; trace := trace st |}.

(** Appends an event to the log. *)
Definition emit (e : event) (st : state) : state :=
  {| modules := modules st; callbacks := callbacks st;
     message_queue := message_queue st;
     currently_handling_module := currently_handling_module st;
     plugins := plugins st; mallocs := mallocs st;
     trace := trace st ++ [e] |}.

(** One allocation request ([malloc], [strdup]). *)
Definition do_malloc (st : state) : option N * state :=
  (malloc E (mallocs st),
   {| modules := modules st; callbacks := callbacks st;
      message_queue := message_queue st;
      currently_handling_module := currently_handling_module st;
      plugins := plugins st; mallocs := S (mallocs st);
      trace := trace st |}).

(** ** The handler registry *)

(** [msg_comparator]: [handler->msg_type - (u_int32_t)msg_type],
    returned as an [int]. *)
Definition msg_comparator (handler : msg_handler_info_t) (type : Z) : Z :=
  to_gint (msg_type handler - wrap32 type).

(** [sort_comparator]. *)
Definition sort_comparator (handler existing : msg_handler_info_t) : Z :=
  if msg_type handler >? msg_type existing then 1
  else if msg_type handler <? msg_type existing then 0
  else if priority (owner handler) >? priority (owner existing) then 1
  else 0.

(** [add_single_handler]: 0 on OK, -1 on error. *)
Definition add_single_handler (type size : Z) (cb : N) (o : module_t)
    (st : state) : Z * state :=
  let (p, st) := do_malloc st in
  match p with
  | None => (-1, st)
  | Some _ =>
      let handler :=
        {| msg_type := type; msg_size := size;
           callback := cb; owner := o |} in
      (* Insert into sorted list. *)
      (0, set_callbacks
            (g_slist_insert_sorted_with_data (callbacks st) handler
               sort_comparator) st)
  end.

(** The loop of [add_msghandlers] over the handler table, which ends at
    the first entry whose callback is NULL. *)
Fixpoint add_msghandlers_loop (table : list module_fn_info_t)
    (m : module_t) (st : state) : Z * state :=
  match table with
  | [] => (0, st)
  | msg_handler :: rest =>
      if (fn_callback msg_handler =? 0)%N then (0, st)
      else
        let (r, st) :=
          add_single_handler (fn_msg_type msg_handler)
            (fn_msg_size msg_handler) (fn_callback msg_handler) m st in
        if r =? 0 then add_msghandlers_loop rest m st else (-1, st)
  end.

(** The handler table of a module: [dlsym(module->handle,
    "message_handlers")]; no table when there is none or no handle. *)
Definition message_handlers_of (m : module_t) : list module_fn_info_t :=
  match handle m with
  | Some h => default [] (dlsym_message_handlers E h)
  | None => []
  end.

(** [add_msghandlers]: 0 when OK, -1 on error. *)
Definition add_msghandlers (m : option module_t) (st : state)
    : Z * state :=
  match m with
  | None => (-1, st)
  | Some m => add_msghandlers_loop (message_handlers_of m) m st
  end.

(** The loop of [remove_msghandlers], from the node [node] on. *)
Fixpoint remove_msghandlers_loop (node : list msg_handler_info_t)
    (m : module_t) (st : state) : state :=
  match node with
  | [] => st
  | handler :: next =>
      if module_eqb (owner handler) m
      then
        remove_msghandlers_loop next m
          (set_callbacks (g_slist_delete_link (callbacks st) node)
             (emit (EvFreeHandler handler) st))
      else remove_msghandlers_loop next m st
  end.

(** [remove_msghandlers]: removes all registered callbacks of [m]. *)
Definition remove_msghandlers (m : module_t) (st : state) : state :=
  remove_msghandlers_loop (callbacks st) m st.

(** ** The message queue *)

(** The buffer [queue_message] builds: the first [line_size_] bytes of
    the message (the whole header, as [line_size_] is at least its
    size, and the payload that fits), then [extra_size] bytes of
    [extra], and [line_size_] increased by [extra_size]. *)
Definition copy_message (genmsg : dsmemsg_generic_t) (extra_size : Z)
    (extra : list byte) : dsmemsg_generic_t :=
  {| line_size_ := wrap32 (line_size_ genmsg + extra_size);
     size_ := size_ genmsg;
     type_ := type_ genmsg;
     payload :=
       take (Z.to_nat (line_size_ genmsg - sizeof_dsmemsg_generic_t))
         (payload genmsg)
       ++ take (Z.to_nat extra_size) extra |}.

(** [queue_message]. *)
Definition queue_message (sender : endpoint_t) (recipient : option module_t)
    (msg : option dsmemsg_generic_t) (extra_size : Z) (extra : list byte)
    (st : state) : state :=
  match msg with
  | None => st
  | Some genmsg =>
      if line_size_ genmsg <? sizeof_dsmemsg_generic_t then st
      else
        let (newmsg, st) := do_malloc st in
        match newmsg with
        | None => st
        | Some _ =>
            let (buf, st) := do_malloc st in
            match buf with
            | Some _ =>
                let q := {| from := sender; to := recipient;
                            data := copy_message genmsg extra_size extra |}
                in
                emit (EvQueued q)
                  (set_message_queue
                     (g_slist_append (message_queue st) q) st)
            | None => st
            end
        end
  end.

(** The socket layer: [dsmesock_broadcast_with_extra] and
    [dsmesock_send_with_extra] are recorded in the log. *)
Definition dsmesock_broadcast_with_extra (msg : option dsmemsg_generic_t)
    (extra_size : Z) (extra : list byte) (st : state) : state :=
  emit (EvSockBroadcast msg extra_size extra) st.

Definition dsmesock_send_with_extra (c : N)
    (msg : option dsmemsg_generic_t) (extra_size : Z) (extra : list byte)
    (st : state) : state :=
  emit (EvSockSend c msg extra_size extra) st.

Definition dsme_log (level : Z) (st : state) : state :=
  emit (EvLog level) st.

Definition broadcast_internally (msg : option dsmemsg_generic_t)
    (st : state) : state :=
  let sender :=
    {| module := currently_handling_module st; conn := None |} in
  (* use 0 as recipient for broadcasting *)
  queue_message sender None msg 0 [] st.

Definition broadcast_internally_from_socket
    (msg : option dsmemsg_generic_t) (c : option N) (st : state) : state :=
  let sender := {| module := None; conn := c |} in
  queue_message sender None msg 0 [] st.

Definition broadcast_with_extra (msg : option dsmemsg_generic_t)
    (extra_size : Z) (extra : list byte) (st : state) : state :=
  let sender :=
    {| module := currently_handling_module st; conn := None |} in
  let st := queue_message sender None msg extra_size extra st in
  dsmesock_broadcast_with_extra msg extra_size extra st.

Definition broadcast (msg : option dsmemsg_generic_t) (st : state)
    : state :=
  broadcast_with_extra msg 0 [] st.

Definition queue_for_module_with_extra (recipient : module_t)
    (msg : option dsmemsg_generic_t) (extra_size : Z) (extra : list byte)
    (st : state) : state :=
  let sender :=
    {| module := currently_handling_module st; conn := None |} in
  queue_message sender (Some recipient) msg extra_size extra st.

Definition endpoint_send_with_extra (recipient : option endpoint_t)
    (msg : option dsmemsg_generic_t) (extra_size : Z) (extra : list byte)
    (st : state) : state :=
  match recipient with
  | Some recipient =>
      match module recipient with
      | Some m => queue_for_module_with_extra m msg extra_size extra st
      | None =>
          match conn recipient with
          | Some c => dsmesock_send_with_extra c msg extra_size extra st
          | None => dsme_log LOG_DEBUG st
          end
      end
  | None => dsme_log LOG_DEBUG st
  end.

Definition endpoint_send (recipient : option endpoint_t)
    (msg : option dsmemsg_generic_t) (st : state) : state :=
  endpoint_send_with_extra recipient msg 0 [] st.

(** ** Endpoints *)

(** [a == b] on nullable connection pointers. *)
Definition conn_ptr_eqb (a b : option N) : bool :=
  match a, b with
  | None, None => true
  | Some x, Some y => N.eqb x y
  | _, _ => false
  end.

(** [endpoint_same]; the arguments are nullable pointers to endpoints. *)
Definition endpoint_same (a b : option endpoint_t) : bool :=
  match a, b with
  | Some a, Some b =>
      if (bool_decide (is_Some (module a))
            && module_ptr_eqb (module a) (module b))
         || (bool_decide (is_Some (conn a))
               && conn_ptr_eqb (conn a) (conn b))
      then true else false
  | _, _ => false
  end.

(** [endpoint_copy] ([None] when the endpoint is NULL or the allocation
    fails). *)
Definition endpoint_copy (endpoint : option endpoint_t) (st : state)
    : option endpoint_t * state :=
  match endpoint with
  | Some e =>
      let (copy, st) := do_malloc st in
      match copy with
      | Some _ => (Some {| module := module e; conn := conn e |}, st)
      | None => (None, st)
      end
  | None => (None, st)
  end.

(** [module_name]. *)
Definition module_name (m : module_t) : string := name m.

(** ** Running plugin code *)

Definition run_action (a : action) (st : state) : state :=
  match a with
  | call_broadcast_internally msg => broadcast_internally msg st
  | call_broadcast_internally_from_socket msg c =>
      broadcast_internally_from_socket msg c st
  | call_broadcast_with_extra msg extra_size extra =>
      broadcast_with_extra msg extra_size extra st
  | call_broadcast msg => broadcast msg st
  | call_endpoint_send_with_extra recipient msg extra_size extra =>
      endpoint_send_with_extra recipient msg extra_size extra st
  | call_endpoint_send recipient msg => endpoint_send recipient msg st
  end.

Definition run_actions (acts : list action) (st : state) : state :=
  foldl (fun st a => run_action a st) st acts.

(** Runs plugin code [code] on the plugins' state, then performs the
    calls it made. *)
Definition run_plugin (code : world -> world * list action) (st : state)
    : state :=
  let (w, acts) := code (plugins st) in
  run_actions acts (set_plugins w st).

(** ** Dispatch *)

(** The body of the loop of [handle_message] for the node found. *)
Definition handle_message_node (handler : msg_handler_info_t)
    (sender : endpoint_t) (recipient : option module_t)
    (msg : dsmemsg_generic_t) (st : state) : state :=
  if negb (callback handler =? 0)%N then
    if negb (bool_decide (is_Some recipient))
       || module_ptr_eqb recipient (Some (owner handler))
    then
      if (line_size_ msg >=? msg_size handler)
         && (size_ msg =? msg_size handler)
      then
        let st := set_currently_handling_module (Some (owner handler)) st in
        let st := emit (EvCallback handler sender msg) st in
        let st := run_plugin (handler_fn E (callback handler) sender msg) st in
        set_currently_handling_module None st
      else st
    else st
  else st.

(** The loop of [handle_message]:
    [while ((node = g_slist_find_custom(node, id, msg_comparator)))
       { ...; node = g_slist_next(node); }]. *)
#[local] Obligation Tactic := idtac.

Equations handle_message_loop (node : list msg_handler_info_t)
    (sender : endpoint_t) (recipient : option module_t)
    (msg : dsmemsg_generic_t) (st : state) : state
    by wf (length node) lt :=
  handle_message_loop node sender recipient msg st
    with inspect (g_slist_find_custom node (dsmemsg_id msg) msg_comparator)
    => {
    | exist _ [] _ := st;
    | exist _ (handler :: next) Hfound :=
        handle_message_loop (g_slist_next (handler :: next))
          sender recipient msg
          (handle_message_node handler sender recipient msg st) }.
Next Obligation.
  intros node sender recipient msg handler next Hfound st _.
  assert (Hlen : forall l : list msg_handler_info_t,
             (length (g_slist_find_custom l (dsmemsg_id msg)
                        msg_comparator) <= length l)%nat).
  { induction l as [|x l IH]; simpl; [lia|].
    destruct (msg_comparator x (dsmemsg_id msg) =? 0); simpl; lia. }
  specialize (Hlen node). simpl in Hfound. rewrite Hfound in Hlen.
  unfold g_slist_next. simpl in *. rewrite drop_0. lia.
Qed.

(** [handle_message]: passes a message to all matching handlers. *)
Definition handle_message (sender : endpoint_t)
    (recipient : option module_t) (msg : dsmemsg_generic_t) (st : state)
    : state :=
  let st :=
    emit (EvHandle {| from := sender; to := recipient; data := msg |}) st in
  handle_message_loop (callbacks st) sender recipient msg st.

(** [process_message_queue]; [fuel] bounds the number of iterations of
    its loop, and [None] means the bound was reached. *)
Fixpoint process_message_queue (fuel : nat) (st : state) : option state :=
  match message_queue st with
  | [] => Some st
  | front :: _ =>
      match fuel with
      | O => None
      | S fuel =>
          let st :=
            set_message_queue
              (g_slist_delete_link (message_queue st) (message_queue st))
              st in
          let st := handle_message (from front) (to front) (data front) st in
          process_message_queue fuel st
      end
  end.

(** ** Loading and unloading modules *)

(** [unload_module]: 0 on success, -1 when the module is not loaded. *)
Definition unload_module (m : module_t) (st : state) : Z * state :=
  let node := g_slist_find module_eqb (modules st) m in
  match node with
  | [] => (-1, st)
  | _ :: _ =>
      let st := remove_msghandlers m st in
      let st :=
        match handle m with
        | Some h =>
            (* Call module_fini() -function if it exists *)
            let st := set_currently_handling_module (Some m) st in
            let st :=
              match dlsym_module_fini E h with
              | Some finifunc =>
                  run_plugin finifunc (emit (EvModuleFini m) st)
              | None => st
              end in
            let st := set_currently_handling_module None st in
            emit (EvDlclose h) st
        | None => st
        end in
      let st := emit (EvFreeModule m) st in
      (0, set_modules (g_slist_delete_link (modules st) node) st)
  end.

(** The first part of [load_module]: resolves [filename] to a code
    handle, trying the path prefixed with "./" first when it is not
    absolute. *)
Definition load_module_dlopen (filename : string) (st : state)
    : option N * state :=
  let (dlhandle, st) :=
    if negb (bool_decide (String.get 0 filename = Some "/"%char))
    then
      let (newname, st) := do_malloc st in
      match newname with
      | Some _ => (dlopen E ("./" +:+ filename), st)
      | None => (None, st)
      end
    else (None, st) in
  match dlhandle with
  | Some h => (Some h, st)
  | None => (dlopen E filename, st)
  end.

(** The [error:] exit of [load_module]. *)
Definition load_module_error (m : option module_t) (dlhandle : option N)
    (st : state) : option module_t * state :=
  let st := dsme_log LOG_CRIT st in
  let st :=
    match m with
    | Some m => emit (EvFreeModule m) (remove_msghandlers m st)
    | None => st
    end in
  let st :=
    match dlhandle with
    | Some h => emit (EvDlclose h) st
    | None => st
    end in
  (None, st).

(** [module_init] is called, if it exists, with the module as the
    currently handling module. *)
Definition load_module_init (m : module_t) (h : N) (st : state) : state :=
  match dlsym_module_init E h with
  | Some initfunc =>
      let st := set_currently_handling_module (Some m) st in
      let st := run_plugin (initfunc m) (emit (EvModuleInit m) st) in
      set_currently_handling_module None st
  | None => st
  end.

(** [load_module]: the loaded module, or NULL. *)
Definition load_module (filename : string) (prio : Z) (st : state)
    : option module_t * state :=
  let (dlhandle, st) := load_module_dlopen filename st in
  match dlhandle with
  | None => (None, dsme_log LOG_CRIT st)
  | Some h =>
      (* Now the module should be open *)
      let (p, st) := do_malloc st in
      match p with
      | None => load_module_error None (Some h) st
      | Some a =>
          let m := {| addr := a; name := filename;
                      priority := prio; handle := Some h |} in
          let (dup, st) := do_malloc st in
          match dup with
          | None => load_module_error (Some m) (Some h) st
          | Some _ =>
              let st := load_module_init m h st in
              (* Add message handlers for the module *)
              let (r, st) := add_msghandlers (Some m) st in
              if negb (r =? 0) then load_module_error (Some m) (Some h) st
              else
                (* Insert the module to the modulelist *)
                (Some m, set_modules (g_slist_append (modules st) m) st)
          end
      end
  end.

(** [modulebase_init]: loads the start-up modules, at priority 0. *)
Fixpoint modulebase_init (module_names : list string) (st : state)
    : bool * state :=
  match module_names with
  | [] => (true, st)
  | modname :: rest =>
      let (m, st) := load_module modname 0 st in
      match m with
      | None => (false, dsme_log LOG_CRIT st)
      | Some _ => modulebase_init rest st
      end
  end.

(** The loop of [modulebase_shutdown]; [n] bounds its iterations and
    [fuel] those of each [process_message_queue]. *)
Fixpoint modulebase_shutdown_loop (fuel n : nat) (st : state)
    : option state :=
  match modules st with
  | [] => Some st
  | _ :: _ =>
      match n with
      | O => None
      | S n =>
          st ← process_message_queue fuel st;
          match modules st with
          | [] => None
          | m :: _ =>
              let (_, st) := unload_module m st in
              modulebase_shutdown_loop fuel n st
          end
      end
  end.

(** [modulebase_shutdown]; [fuel] bounds the iterations of each of its
    loops, and [None] means a bound was reached. *)
Definition modulebase_shutdown (fuel : nat) (st : state) : option state :=
  st ← modulebase_shutdown_loop fuel fuel st;
  process_message_queue fuel st.

End ModuleBase.

(** ** Credentials *)

(** [struct ucred]: process, user and group identifiers; [uid_t] and
    [gid_t] are unsigned 32-bit. *)
Record ucred := {
  pid : Z;
  uid : Z;
  gid : Z
}.

(** The credentials [endpoint_ucred] returns when it knows none:
    [{ .pid = 0, .uid = -1, .gid = -1 }]. *)
Definition bogus_ucred : ucred :=
  {| pid := 0; uid := wrap32 (-1); gid := wrap32 (-1) |}.

(** [endpoint_ucred]. [self] is what [getpid], [getuid] and [getgid]
    return for the daemon, and [dsmesock_getucred] is the lookup of the
    socket layer ([None] for NULL). *)
Definition endpoint_ucred (self : ucred)
    (dsmesock_getucred : N -> option ucred) (sender : option endpoint_t)
    : ucred :=
  let u :=
    match sender with
    | Some sender =>
        match module sender with
        | Some _ => Some self
        | None =>
            match conn sender with
            | Some c => dsmesock_getucred c
            | None => None
            end
        end
    | None => None
    end in
  match u with
  | Some u => u
  | None => bogus_ucred
  end.

(** ** Reading the log *)

(** The envelopes appended to the message queue, in order. *)
Definition queued_of (tr : list event) : list queued_msg_t :=
  omap (fun e => match e with EvQueued q => Some q | _ => None end) tr.

(** The envelopes passed to [handle_message], in order. *)
Definition handled_of (tr : list event) : list queued_msg_t :=
  omap (fun e => match e with EvHandle q => Some q | _ => None end) tr.

(** The callback invocations, in order: handler, sender, message. *)
Definition invoked_of (tr : list event)
    : list (msg_handler_info_t * endpoint_t * dsmemsg_generic_t) :=
  omap (fun e => match e with
                 | EvCallback h s m => Some (h, s, m)
                 | _ => None
                 end) tr.

(** The handler registrations released, in order. *)
Definition freed_handlers_of (tr : list event) : list msg_handler_info_t :=
  omap (fun e => match e with EvFreeHandler h => Some h | _ => None end) tr.

(** The module records released, in order. *)
Definition freed_modules_of (tr : list event) : list module_t :=
  omap (fun e => match e with EvFreeModule m => Some m | _ => None end) tr.

(** The events a run of plugin code can cause: queueing, socket traffic
    and logging. *)
Definition plugin_event (e : event) : bool :=
  match e with
  | EvQueued _ | EvSockBroadcast _ _ _ | EvSockSend _ _ _ _ | EvLog _ => true
  | _ => false
  end.

(** ** The properties of the specification *)

(** The handler [h] is owned by the module [m]. *)
Definition owned_by (m : module_t) (h : msg_handler_info_t) : Prop :=
  addr (owner h) = addr m.

#[global] Instance owned_by_dec m h : Decision (owned_by m h).
Proof. unfold owned_by. apply _. Defined.

(** The module [m] is in the module registry [l]. *)
Definition registered (m : module_t) (l : list module_t) : Prop :=
  Exists (fun x => addr x = addr m) l.

(** The order the specification asks of the handler registry: message
    type descending and, within a message type, owner priority
    descending. *)
Definition registry_descending (h1 h2 : msg_handler_info_t) : Prop :=
  msg_type h1 > msg_type h2
  \/ (msg_type h1 = msg_type h2
      /\ priority (owner h1) >= priority (owner h2)).

(** The order the registry is kept in: message type ascending and, within
    a message type, owner priority ascending. *)
Definition registry_ascending (h1 h2 : msg_handler_info_t) : Prop :=
  msg_type h1 < msg_type h2
  \/ (msg_type h1 = msg_type h2
      /\ priority (owner h1) <= priority (owner h2)).

(** The delivery condition of the specification: the handler's message
    type is the message's type identifier, the message is a broadcast or
    addressed to the handler's owner, its total size is at least the
    expected size and its declared size is exactly the expected size. *)
Definition spec_delivers (recipient : option module_t)
    (msg : dsmemsg_generic_t) (h : msg_handler_info_t) : Prop :=
  msg_type h = type_ msg
  /\ match recipient with
     | None => True
     | Some m => addr m = addr (owner h)
     end
  /\ line_size_ msg >= msg_size h
  /\ size_ msg = msg_size h.

#[global] Instance spec_delivers_dec recipient msg h :
  Decision (spec_delivers recipient msg h).
Proof.
  unfold spec_delivers. destruct recipient; apply _.
Defined.

(** An endpoint that denotes a module, and one that denotes a
    connection. *)
Definition is_module_endpoint (e : endpoint_t) : Prop :=
  is_Some (module e) /\ conn e = None.

Definition is_connection_endpoint (e : endpoint_t) : Prop :=
  module e = None /\ is_Some (conn e).

(** A registration request: the arguments of [add_single_handler]. *)
Record registration := {
  reg_type : Z;
  reg_size : Z;
  reg_callback : N;
  reg_owner : module_t
}.

(** A sequence of calls of [add_single_handler]. *)
Definition register_all {world : Type} (E : env world)
    (rs : list registration) (st : state world) : state world :=
  foldl (fun st r =>
           snd (add_single_handler E (reg_type r) (reg_size r)
                  (reg_callback r) (reg_owner r) st)) st rs.

(** The condition under which the loop of [handle_message] calls the
    callback of the node it found. *)
Definition node_delivers (recipient : option module_t)
    (msg : dsmemsg_generic_t) (h : msg_handler_info_t) : Prop :=
  callback h <> 0%N
  /\ match recipient with
     | None => True
     | Some m => addr m = addr (owner h)
     end
  /\ line_size_ msg >= msg_size h
  /\ size_ msg = msg_size h.

#[global] Instance node_delivers_dec recipient msg h :
  Decision (node_delivers recipient msg h).
Proof.
  unfold node_delivers. destruct recipient; apply _.
Defined.

(** ** Summaries of runs

    [st'] is reached from [st] and [tr] is what was logged on the way. *)

(** A run that only queues messages, talks to the sockets and logs, as
    plugin code does. *)
Definition plugin_step {world : Type} (st st' : state world)
    (tr : list event) : Prop :=
  trace st' = trace st ++ tr
  /\ Forall (fun e => plugin_event e = true) tr
  /\ message_queue st' = message_queue st ++ queued_of tr
  /\ modules st' = modules st
  /\ callbacks st' = callbacks st
  /\ currently_handling_module st' = currently_handling_module st.

(** A run that calls handlers: it leaves both registries alone, takes
    nothing from the queue and releases nothing. *)
Definition dispatch_step {world : Type} (st st' : state world)
    (tr : list event) : Prop :=
  trace st' = trace st ++ tr
  /\ message_queue st' = message_queue st ++ queued_of tr
  /\ handled_of tr = []
  /\ freed_handlers_of tr = []
  /\ freed_modules_of tr = []
  /\ modules st' = modules st
  /\ callbacks st' = callbacks st.

(** A run that takes envelopes from the queue: every envelope it passed
    to [handle_message] came from the head of the queue, which received
    the envelopes queued meanwhile at its tail. *)
Definition queue_step {world : Type} (st st' : state world)
    (tr : list event) : Prop :=
  trace st' = trace st ++ tr
  /\ message_queue st ++ queued_of tr = handled_of tr ++ message_queue st'.

(** What the finalization step of [unload_module] logs: the call of
    [module_fini], what the finalizer caused, and the release of the
    code. *)
Definition finalization_events {world : Type} (E : env world)
    (m : module_t) (tr : list event) : Prop :=
  match handle m with
  | Some h =>
      match dlsym_module_fini E h with
      | Some _ =>
          exists tr', tr = EvModuleFini m :: tr' ++ [EvDlclose h]
                      /\ Forall (fun e => plugin_event e = true) tr'
      | None => tr = [EvDlclose h]
      end
  | None => tr = []
  end.

(** Shutdown in the words of the specification: drain the queue, then
    unload the first remaining module, until no modules remain; then
    drain the queue once more. *)
Inductive shutdown_run {world : Type} (E : env world) (fuel : nat)
    : state world -> state world -> Prop :=
| shutdown_final st st' :
    modules st = [] ->
    process_message_queue E fuel st = Some st' ->
    shutdown_run E fuel st st'
| shutdown_unload st m rest st1 st2 st' :
    modules st = m :: rest ->
    process_message_queue E fuel st = Some st1 ->
    unload_module E m st1 = (0, st2) ->
    modules st2 = rest ->
    shutdown_run E fuel st2 st' ->
    shutdown_run E fuel st st'.

(** ** A concrete daemon

    Two plugins in the shape of the end-to-end scenarios of the
    specification. [liba.so] registers one handler for type 0x10 of
    size 8 and broadcasts a message of that type from its finalizer;
    [libb.so] registers handlers for types 0x10 (size 8) and 0x20
    (size 4), and its handler for 0x10 answers with a broadcast of type
    0x20 that carries two extra bytes. The plugins count the calls of
    their code. *)
Module Example.

Definition msg10 : dsmemsg_generic_t :=
  {| line_size_ := 20; size_ := 8; type_ := 16;
     payload := [x01; x02; x03; x04; x05; x06; x07; x08] |}.

Definition msg20 : dsmemsg_generic_t :=
  {| line_size_ := 12; size_ := 4; type_ := 32; payload := [] |}.

Definition table (h : N) : option (list module_fn_info_t) :=
  if (h =? 1)%N then
    Some [ {| fn_msg_type := 16; fn_msg_size := 8; fn_callback := 1 |};
           {| fn_msg_type := 0; fn_msg_size := 0; fn_callback := 0 |} ]
  else if (h =? 2)%N then
    Some [ {| fn_msg_type := 16; fn_msg_size := 8; fn_callback := 2 |};
           {| fn_msg_type := 32; fn_msg_size := 4; fn_callback := 3 |};
           {| fn_msg_type := 0; fn_msg_size := 0; fn_callback := 0 |} ]
  else None.

(** The environment; the allocation request number [fail_at], if any,
    fails. *)
Definition E (fail_at : option nat) : env nat :=
  {| malloc := fun k =>
       if bool_decide (fail_at = Some k) then None
       else Some (N.of_nat k + 4096)%N;
     dlopen := fun path =>
       if bool_decide (path = "./liba.so") then Some 1%N
       else if bool_decide (path = "./libb.so") then Some 2%N
       else None;
     dlsym_module_init := fun _ => None;
     dlsym_module_fini := fun h =>
       if (h =? 1)%N
       then Some (fun w => (S w, [call_broadcast_internally (Some msg10)]))
       else None;
     dlsym_message_handlers := table;
     handler_fn := fun f _ _ w =>
       (S w,
        if (f =? 2)%N
        then [call_broadcast_with_extra (Some msg20) 2 [x0a; x0b]]
        else []) |}.

Definition st0 : state nat :=
  {| modules := []; callbacks := []; message_queue := [];
     currently_handling_module := None; plugins := O;
     mallocs := O; trace := [] |}.

Definition modA : module_t :=
  {| addr := 4097; name := "liba.so"; priority := 5; handle := Some 1%N |}.

Definition modB : module_t :=
  {| addr := 4101; name := "libb.so"; priority := 9; handle := Some 2%N |}.

Definition hA : msg_handler_info_t :=
  {| msg_type := 16; msg_size := 8; owner := modA; callback := 1 |}.

Definition hB : msg_handler_info_t :=
  {| msg_type := 16; msg_size := 8; owner := modB; callback := 2 |}.

Definition hB' : msg_handler_info_t :=
  {| msg_type := 32; msg_size := 4; owner := modB; callback := 3 |}.

(** [liba.so] loaded at priority 5, then [libb.so] at priority 9. *)
Definition loaded : state nat :=
  snd (load_module (E None) "libb.so" 9
         (snd (load_module (E None) "liba.so" 5 st0))).

(** The same two handlers for type 0x10, registered by explicit calls
    of [add_single_handler]. *)
Definition registrations : list registration :=
  [ {| reg_type := 16; reg_size := 8; reg_callback := 1; reg_owner := modA |};
    {| reg_type := 16; reg_size := 8; reg_callback := 2; reg_owner := modB |} ].

(** The sender of a message queued outside any handler. *)
Definition nobody : endpoint_t := {| module := None; conn := None |}.



(** A broadcast of [msg10] is queued, and then the queue is drained. *)
Definition cascade_start : state nat := broadcast (E None) (Some msg10) loaded.

Definition cascade_end : state nat :=
  default cascade_start (process_message_queue (E None) 4 cascade_start).

(** The daemon is shut down. *)
Definition shut : state nat :=
  default loaded (modulebase_shutdown (E None) 4 loaded).

(** [liba.so] is loaded in an environment where the ninth allocation
    request fails: it is the one for the second handler of [libb.so]. *)
Definition loadedA : state nat :=
  snd (load_module (E (Some 8%nat)) "liba.so" 5 st0).

End Example.

(** ** Further notions *)

(** The handler [x] sorts strictly before the key [(type, prio)], and not
    before it. *)
Definition key_below (type prio : Z) (x : msg_handler_info_t) : Prop :=
  msg_type x < type \/ (msg_type x = type /\ priority (owner x) < prio).

Definition key_not_below (type prio : Z) (x : msg_handler_info_t) : Prop :=
  type < msg_type x \/ (msg_type x = type /\ prio <= priority (owner x)).

(** The registration [add_msghandlers] makes for the table entry [e] of
    the module [m]. *)
Definition handler_of_entry (m : module_t) (e : module_fn_info_t)
    : msg_handler_info_t :=
  {| msg_type := fn_msg_type e; msg_size := fn_msg_size e;
     owner := m; callback := fn_callback e |}.

(** An endpoint as the module base builds them denotes at most one
    thing: a module or a connection. *)
Definition endpoint_wf (e : endpoint_t) : Prop :=
  module e = None \/ conn e = None.

(** Every registered handler is owned by a loaded module. *)
Definition handlers_owned {world : Type} (st : state world) : Prop :=
  Forall (fun h => registered (owner h) (modules st)) (callbacks st).

(** [st'] has the currently handling module of [st], or none. *)
Definition context_kept {world : Type} (st st' : state world) : Prop :=
  currently_handling_module st' = currently_handling_module st
  \/ currently_handling_module st' = None.

(** No envelope of [qs] is attributed to a module other than [m]. *)
Definition attributed_to (m : module_t) (qs : list queued_msg_t) : Prop :=
  Forall (fun q => forall x, module (from q) = Some x -> x = m) qs.

(** ** A daemon whose drain does not return

    One plugin whose handler for type 1 broadcasts a message of type 1
    again. *)
Module Loop.

Definition ping : dsmemsg_generic_t :=
  {| line_size_ := 12; size_ := 12; type_ := 1; payload := [] |}.

Definition E : env unit :=
  {| malloc := fun k => Some (N.of_nat k + 4096)%N;
     dlopen := fun _ => None;
     dlsym_module_init := fun _ => None;
     dlsym_module_fini := fun _ => None;
     dlsym_message_handlers := fun _ => None;
     handler_fn := fun _ _ _ w =>
       (w, [call_broadcast_internally (Some ping)]) |}.

Definition echo : module_t :=
  {| addr := 4096; name := "echo.so"; priority := 0; handle := Some 1%N |}.

Definition handler : msg_handler_info_t :=
  {| msg_type := 1; msg_size := 12; owner := echo; callback := 1 |}.

Definition st0 : state unit :=
  {| modules := [echo]; callbacks := [handler];
     message_queue :=
       [ {| from := {| module := None; conn := None |};
            to := None; data := ping |} ];
     currently_handling_module := None; plugins := tt;
     mallocs := O; trace := [] |}.

End Loop.

(** * Properties *)

(** ** GLib lists *)

Section GSListFacts.
Context {A : Type}.
Implicit Types l link pre rest : list A.

Lemma g_slist_delete_link_head x l :
  g_slist_delete_link (x :: l) (x :: l) = l.
Proof.
  unfold g_slist_delete_link. rewrite Nat.sub_diag. reflexivity.
Qed.

Lemma g_slist_delete_link_suffix pre x rest :
  g_slist_delete_link (pre ++ x :: rest) (x :: rest) = pre ++ rest.
Proof.
  unfold g_slist_delete_link. rewrite length_app.
  replace (length pre + length (x :: rest) - length (x :: rest))%nat
    with (length pre) by lia.
  rewrite take_app_length. reflexivity.
Qed.

Lemma g_slist_find_none {B} (same : A -> B -> bool) l d :
  g_slist_find same l d = [] <-> Forall (fun x => same x d = false) l.
Proof.
  induction l as [|x l IH]; simpl.
  - split; [constructor | reflexivity].
  - destruct (same x d) eqn:Hx.
    + split; [discriminate|]. intros H. inversion H; congruence.
    + rewrite IH. split; [by constructor|]. by inversion 1.
Qed.

Lemma g_slist_find_some {B} (same : A -> B -> bool) l d x rest :
  g_slist_find same l d = x :: rest ->
  exists pre, l = pre ++ x :: rest
    /\ same x d = true /\ Forall (fun y => same y d = false) pre.
Proof.
  induction l as [|y l IH]; simpl; [discriminate|].
  destruct (same y d) eqn:Hy.
  - intros [= -> ->]. exists []. by repeat split.
  - intros H. destruct (IH H) as (pre & -> & Hx & Hpre).
    exists (y :: pre). repeat split; [done|]. by constructor.
Qed.

Lemma g_slist_find_custom_filter {B} l (d : B) (func : A -> B -> Z) :
  filter (fun x => func x d = 0) (g_slist_find_custom l d func)
  = filter (fun x => func x d = 0) l.
Proof.
  induction l as [|x l IH]; simpl; [done|].
  destruct (Z.eqb_spec (func x d) 0) as [Hx|Hx]; [done|].
  rewrite IH. by rewrite (filter_cons_False _ x).
Qed.

Lemma g_slist_insert_sorted_perm l d (func : A -> A -> Z) :
  g_slist_insert_sorted_with_data l d func ≡ₚ d :: l.
Proof.
  induction l as [|x l IH]; simpl; [done|].
  destruct (func d x >? 0); [|done].
  rewrite IH. apply Permutation_swap.
Qed.

Lemma g_slist_insert_sorted_split l d (func : A -> A -> Z) :
  exists pre rest,
    l = pre ++ rest
    /\ g_slist_insert_sorted_with_data l d func = pre ++ d :: rest
    /\ Forall (fun x => func d x > 0) pre
    /\ match rest with [] => True | x :: _ => func d x <= 0 end.
Proof.
  induction l as [|x l IH]; simpl.
  - exists [], []. by repeat split.
  - destruct (Z.gtb_spec (func d x) 0) as [Hx|Hx].
    + destruct IH as (pre & rest & -> & -> & Hpre & Hrest).
      exists (x :: pre), rest. repeat split; [|done].
      constructor; [lia|done].
    + exists [], (x :: l). by repeat split.
Qed.

Lemma g_slist_insert_sorted_filter (P : A -> Prop) `{!forall x, Decision (P x)}
    l d (func : A -> A -> Z) :
  ~ P d ->
  filter P (g_slist_insert_sorted_with_data l d func) = filter P l.
Proof.
  intros Hd.
  destruct (g_slist_insert_sorted_split l d func) as (pre & rest & -> & -> & _).
  rewrite !filter_app. by rewrite filter_cons_False.
Qed.

End GSListFacts.

(** ** The handler registry *)

Section RegistryFacts.
Context {world : Type} (E : env world).
Implicit Types (st : state world) (h d x : msg_handler_info_t).
Implicit Types (l : list msg_handler_info_t) (m : module_t).

Lemma sort_comparator_pos d x :
  sort_comparator d x > 0 -> registry_ascending x d.
Proof.
  unfold sort_comparator, registry_ascending.
  destruct (Z.gtb_spec (msg_type d) (msg_type x)); [lia|].
  destruct (Z.ltb_spec (msg_type d) (msg_type x)); [lia|].
  destruct (Z.gtb_spec (priority (owner d)) (priority (owner x))); lia.
Qed.

Lemma sort_comparator_nonpos d x :
  sort_comparator d x <= 0 -> registry_ascending d x.
Proof.
  unfold sort_comparator, registry_ascending.
  destruct (Z.gtb_spec (msg_type d) (msg_type x)); [lia|].
  destruct (Z.ltb_spec (msg_type d) (msg_type x)); [lia|].
  destruct (Z.gtb_spec (priority (owner d)) (priority (owner x))); lia.
Qed.

#[local] Instance registry_ascending_trans : Transitive registry_ascending.
Proof. unfold registry_ascending. intros x y z. lia. Qed.

(** Insertion with [sort_comparator] keeps an ascending registry
    ascending. *)
Lemma insert_sorted_ascending l d :
  StronglySorted registry_ascending l ->
  StronglySorted registry_ascending
    (g_slist_insert_sorted_with_data l d sort_comparator).
Proof.
  induction 1 as [|x l Hl IH Hx]; simpl.
  - repeat constructor.
  - destruct (Z.gtb_spec (sort_comparator d x) 0) as [Hc|Hc].
    + constructor; [done|].
      rewrite g_slist_insert_sorted_perm. constructor; [|done].
      apply sort_comparator_pos. lia.
    + assert (registry_ascending d x) by by apply sort_comparator_nonpos.
      constructor; [by constructor|]. constructor; [done|].
      eapply Forall_impl; [exact Hx|]. intros y Hy. by etrans.
Qed.

Lemma add_single_handler_callbacks type size cb o st :
  callbacks (snd (add_single_handler E type size cb o st))
  = match malloc E (mallocs st) with
    | Some _ =>
        g_slist_insert_sorted_with_data (callbacks st)
          {| msg_type := type; msg_size := size; callback := cb; owner := o |}
          sort_comparator
    | None => callbacks st
    end.
Proof.
  unfold add_single_handler, do_malloc.
  by destruct (malloc E (mallocs st)).
Qed.

Lemma add_single_handler_ascending type size cb o st :
  StronglySorted registry_ascending (callbacks st) ->
  StronglySorted registry_ascending
    (callbacks (snd (add_single_handler E type size cb o st))).
Proof.
  intros Hs. rewrite add_single_handler_callbacks.
  destruct (malloc E (mallocs st)); [|done].
  by apply insert_sorted_ascending.
Qed.

(** Whatever the registrations, the registry is ordered by message type
    ascending and, within a type, by owner priority ascending. *)
Lemma register_all_ascending rs st :
  StronglySorted registry_ascending (callbacks st) ->
  StronglySorted registry_ascending (callbacks (register_all E rs st)).
Proof.
  revert st. induction rs as [|r rs IH]; intros st Hs; simpl; [done|].
  apply IH. by apply add_single_handler_ascending.
Qed.

(** The loop of [remove_msghandlers] keeps the handlers already passed
    and filters the rest. *)
Lemma remove_msghandlers_loop_spec m node pre st :
  callbacks st = pre ++ node ->
  let st' := remove_msghandlers_loop node m st in
  callbacks st' = pre ++ filter (fun h => ~ owned_by m h) node
  /\ trace st'
     = trace st ++ (EvFreeHandler <$> filter (owned_by m) node)
  /\ modules st' = modules st
  /\ message_queue st' = message_queue st
  /\ currently_handling_module st' = currently_handling_module st
  /\ plugins st' = plugins st
  /\ mallocs st' = mallocs st.
Proof.
  revert pre st. induction node as [|h next IH]; intros pre st Hcb; simpl.
  - rewrite Hcb, !app_nil_r. by repeat split.
  - unfold module_eqb. destruct (N.eqb_spec (addr (owner h)) (addr m)) as [Ho|Ho].
    + edestruct (IH pre) as (-> & -> & -> & -> & -> & -> & ->).
      { simpl. rewrite Hcb. apply g_slist_delete_link_suffix. }
      rewrite (filter_cons_False _ h) by (intros Hn; by apply Hn).
      rewrite (filter_cons_True _ h) by done.
      simpl. rewrite <- app_assoc. by repeat split.
    + edestruct (IH (pre ++ [h])) as (-> & -> & -> & -> & -> & -> & ->).
      { rewrite Hcb, <- app_assoc. reflexivity. }
      rewrite (filter_cons_True _ h) by done.
      rewrite (filter_cons_False _ h) by done.
      rewrite <- app_assoc. by repeat split.
Qed.

Lemma remove_msghandlers_spec m st :
  let st' := remove_msghandlers m st in
  callbacks st' = filter (fun h => ~ owned_by m h) (callbacks st)
  /\ trace st'
     = trace st ++ (EvFreeHandler <$> filter (owned_by m) (callbacks st))
  /\ modules st' = modules st
  /\ message_queue st' = message_queue st
  /\ currently_handling_module st' = currently_handling_module st
  /\ plugins st' = plugins st
  /\ mallocs st' = mallocs st.
Proof. apply (remove_msghandlers_loop_spec m (callbacks st) []). done. Qed.

Lemma remove_msghandlers_none_owned m st :
  Forall (fun h => ~ owned_by m h) (callbacks (remove_msghandlers m st)).
Proof.
  destruct (remove_msghandlers_spec m st) as (-> & _).
  apply Forall_forall. intros h Hh. by apply list_elem_of_filter in Hh as [? _].
Qed.

End RegistryFacts.

(** ** Reading the log *)

Section LogFacts.

Lemma queued_of_app tr1 tr2 :
  queued_of (tr1 ++ tr2) = queued_of tr1 ++ queued_of tr2.
Proof. apply omap_app. Qed.

Lemma handled_of_app tr1 tr2 :
  handled_of (tr1 ++ tr2) = handled_of tr1 ++ handled_of tr2.
Proof. apply omap_app. Qed.

Lemma invoked_of_app tr1 tr2 :
  invoked_of (tr1 ++ tr2) = invoked_of tr1 ++ invoked_of tr2.
Proof. apply omap_app. Qed.

Lemma freed_handlers_of_app tr1 tr2 :
  freed_handlers_of (tr1 ++ tr2)
  = freed_handlers_of tr1 ++ freed_handlers_of tr2.
Proof. apply omap_app. Qed.

Lemma freed_modules_of_app tr1 tr2 :
  freed_modules_of (tr1 ++ tr2)
  = freed_modules_of tr1 ++ freed_modules_of tr2.
Proof. apply omap_app. Qed.

Lemma plugin_events_silent tr :
  Forall (fun e => plugin_event e = true) tr ->
  handled_of tr = [] /\ invoked_of tr = []
  /\ freed_handlers_of tr = [] /\ freed_modules_of tr = [].
Proof.
  induction 1 as [|e tr He _ IH]; [done|].
  destruct IH as (H1 & H2 & H3 & H4).
  destruct e; try discriminate He;
    unfold handled_of, invoked_of, freed_handlers_of, freed_modules_of in *;
    simpl; by rewrite ?H1, ?H2, ?H3, ?H4.
Qed.

Lemma freed_handlers_of_fmap l :
  freed_handlers_of (EvFreeHandler <$> l) = l.
Proof. induction l as [|h l IH]; [done|]. simpl. by f_equal. Qed.

Lemma fmap_free_handler_silent l :
  queued_of (EvFreeHandler <$> l) = [] /\ handled_of (EvFreeHandler <$> l) = []
  /\ invoked_of (EvFreeHandler <$> l) = []
  /\ freed_modules_of (EvFreeHandler <$> l) = [].
Proof. induction l as [|h l IH]; [done|]. simpl. exact IH. Qed.

End LogFacts.

(** ** Queueing and plugin code *)

Section QueueFacts.
Context {world : Type} (E : env world).
Implicit Types (st : state world) (tr : list event).

Lemma plugin_step_refl st : plugin_step st st [].
Proof. unfold plugin_step. rewrite !app_nil_r. by repeat split. Qed.

Lemma plugin_step_trans st1 st2 st3 tr1 tr2 :
  plugin_step st1 st2 tr1 -> plugin_step st2 st3 tr2 ->
  plugin_step st1 st3 (tr1 ++ tr2).
Proof.
  intros (Ht1 & Hp1 & Hq1 & Hm1 & Hc1 & Hh1) (Ht2 & Hp2 & Hq2 & Hm2 & Hc2 & Hh2).
  unfold plugin_step.
  rewrite Ht2, Ht1, Hq2, Hq1, Hm2, Hm1, Hc2, Hc1, Hh2, Hh1, queued_of_app.
  rewrite <- !app_assoc. repeat split. by apply Forall_app.
Qed.

Lemma plugin_step_emit e st :
  plugin_event e = true -> queued_of [e] = [] ->
  plugin_step st (emit e st) [e].
Proof.
  intros He Hq. unfold plugin_step. rewrite Hq, app_nil_r. simpl.
  repeat split. by constructor.
Qed.

Lemma queue_message_step sender recipient msg extra_size extra st :
  exists tr,
    plugin_step st (queue_message E sender recipient msg extra_size extra st) tr
    /\ plugins (queue_message E sender recipient msg extra_size extra st)
       = plugins st.
Proof.
  unfold queue_message.
  destruct msg as [genmsg|]; [|exists []; split; [apply plugin_step_refl|done]].
  destruct (line_size_ genmsg <? sizeof_dsmemsg_generic_t);
    [exists []; split; [apply plugin_step_refl|done]|].
  unfold do_malloc; simpl.
  destruct (malloc E (mallocs st)); simpl.
  - destruct (malloc E (S (mallocs st))); simpl.
    + eexists [EvQueued _]. split; [|done].
      unfold plugin_step, g_slist_append. simpl. repeat split.
      by constructor.
    + exists []. unfold plugin_step. simpl. rewrite !app_nil_r.
      by repeat split.
  - exists []. unfold plugin_step. simpl. rewrite !app_nil_r.
    by repeat split.
Qed.

Lemma run_action_step a st :
  exists tr, plugin_step st (run_action E a st) tr
    /\ plugins (run_action E a st) = plugins st.
Proof.
  destruct a as [msg|msg c|msg sz ex|msg|[r|] msg sz ex|[r|] msg]; simpl;
    unfold broadcast_internally, broadcast_internally_from_socket,
      broadcast, broadcast_with_extra, endpoint_send,
      endpoint_send_with_extra, queue_for_module_with_extra,
      dsmesock_broadcast_with_extra, dsmesock_send_with_extra, dsme_log;
    repeat match goal with
      | |- context [match ?x with Some _ => _ | None => _ end] => destruct x
      end;
    try apply queue_message_step;
    try (eexists [_]; split; [by apply plugin_step_emit|done]).
  all: match goal with
       | |- context [queue_message E ?s ?r ?m ?z ?x ?st0] =>
           destruct (queue_message_step s r m z x st0) as (tr & Hs & Hp)
       end.
  all: eexists (tr ++ [_]); split; [|by rewrite <- Hp].
  all: eapply plugin_step_trans; [exact Hs|by apply plugin_step_emit].
Qed.

Lemma run_actions_step acts st :
  exists tr, plugin_step st (run_actions E acts st) tr
    /\ plugins (run_actions E acts st) = plugins st.
Proof.
  revert st. induction acts as [|a acts IH]; intros st; simpl.
  - exists []. split; [apply plugin_step_refl|done].
  - destruct (run_action_step a st) as (tr1 & H1 & Hp1).
    destruct (IH (run_action E a st)) as (tr2 & H2 & Hp2).
    exists (tr1 ++ tr2). split; [by eapply plugin_step_trans|].
    unfold run_actions in *. congruence.
Qed.

Lemma run_plugin_step code st :
  exists tr, plugin_step st (run_plugin E code st) tr.
Proof.
  unfold run_plugin. destruct (code (plugins st)) as [w acts].
  destruct (run_actions_step acts (set_plugins w st)) as (tr & H & _).
  exists tr. exact H.
Qed.

End QueueFacts.

(** ** Dispatch *)

Section DispatchFacts.
Context {world : Type} (E : env world).
Implicit Types (st : state world) (tr : list event).
Implicit Types (h : msg_handler_info_t) (node : list msg_handler_info_t).

Lemma dispatch_step_refl st : dispatch_step st st [].
Proof. unfold dispatch_step. rewrite !app_nil_r. by repeat split. Qed.

Lemma dispatch_step_trans st1 st2 st3 tr1 tr2 :
  dispatch_step st1 st2 tr1 -> dispatch_step st2 st3 tr2 ->
  dispatch_step st1 st3 (tr1 ++ tr2).
Proof.
  intros (Ht1 & Hq1 & Hh1 & Hf1 & Hg1 & Hm1 & Hc1)
         (Ht2 & Hq2 & Hh2 & Hf2 & Hg2 & Hm2 & Hc2).
  unfold dispatch_step.
  rewrite Ht2, Ht1, Hq2, Hq1, Hm2, Hm1, Hc2, Hc1.
  rewrite queued_of_app, handled_of_app, freed_handlers_of_app,
    freed_modules_of_app, Hh1, Hh2, Hf1, Hf2, Hg1, Hg2.
  rewrite <- !app_assoc. by repeat split.
Qed.

Lemma plugin_step_dispatch st st' tr :
  plugin_step st st' tr -> dispatch_step st st' tr /\ invoked_of tr = [].
Proof.
  intros (Ht & Hp & Hq & Hm & Hc & _).
  destruct (plugin_events_silent tr Hp) as (H1 & H2 & H3 & H4).
  unfold dispatch_step. by repeat split.
Qed.

(** The loop of [handle_message] goes to the first node of the message's
    type, handles it and goes on from the next node. *)
Lemma handle_message_loop_find node sender recipient msg st :
  handle_message_loop E node sender recipient msg st
  = match g_slist_find_custom node (dsmemsg_id msg) msg_comparator with
    | [] => st
    | h :: next =>
        handle_message_loop E next sender recipient msg
          (handle_message_node E h sender recipient msg st)
    end.
Proof.
  rewrite handle_message_loop_equation_1.
  destruct (Logic.inspect
              (g_slist_find_custom node (dsmemsg_id msg) msg_comparator))
    as [[|h next] Heq].
  - simp handle_message_loop. by rewrite Heq.
  - rewrite handle_message_loop_clause_1_equation_2, Heq. reflexivity.
Qed.

Lemma handle_message_loop_nil sender recipient msg st :
  handle_message_loop E [] sender recipient msg st = st.
Proof. by rewrite handle_message_loop_find. Qed.

Lemma handle_message_loop_cons h node sender recipient msg st :
  handle_message_loop E (h :: node) sender recipient msg st
  = if msg_comparator h (dsmemsg_id msg) =? 0
    then handle_message_loop E node sender recipient msg
           (handle_message_node E h sender recipient msg st)
    else handle_message_loop E node sender recipient msg st.
Proof.
  rewrite (handle_message_loop_find (h :: node)). simpl.
  destruct (msg_comparator h (dsmemsg_id msg) =? 0); [done|].
  by rewrite <- handle_message_loop_find.
Qed.

Lemma handle_message_node_step h sender recipient msg st :
  exists tr,
    dispatch_step st (handle_message_node E h sender recipient msg st) tr
    /\ invoked_of tr
       = if decide (node_delivers recipient msg h)
         then [(h, sender, msg)] else [].
Proof.
  unfold handle_message_node.
  destruct (decide (node_delivers recipient msg h)) as [Hd|Hd].
  - destruct Hd as (Hcb & Hto & Hls & Hs).
    assert ((callback h =? 0)%N = false) as -> by by apply N.eqb_neq.
    assert (negb (bool_decide (is_Some recipient))
            || module_ptr_eqb recipient (Some (owner h)) = true) as ->.
    { destruct recipient as [m|]; simpl; [|done].
      unfold module_eqb. by apply N.eqb_eq. }
    assert ((line_size_ msg >=? msg_size h) && (size_ msg =? msg_size h)
            = true) as ->.
    { apply andb_true_iff. split; [apply Z.geb_le; lia|by apply Z.eqb_eq]. }
    simpl.
    destruct (run_plugin_step E
                (handler_fn E (callback h) sender msg)
                (emit (EvCallback h sender msg)
                   (set_currently_handling_module (Some (owner h)) st)))
      as (tr & Hstep).
    apply plugin_step_dispatch in Hstep as [Hstep Hinv].
    exists ([EvCallback h sender msg] ++ tr). split.
    + eapply (dispatch_step_trans _ (emit (EvCallback h sender msg) st)).
      { unfold dispatch_step. simpl. rewrite app_nil_r. by repeat split. }
      destruct Hstep as (Ht & Hq & Hh & Hf & Hg & Hm & Hc).
      unfold dispatch_step. simpl in *. by repeat split.
    + rewrite invoked_of_app, Hinv. done.
  - exists []. split; [|done].
    replace (if negb (callback h =? 0)%N then _ else st) with st;
      [apply dispatch_step_refl|].
    destruct (N.eqb_spec (callback h) 0); simpl; [done|].
    destruct (negb (bool_decide (is_Some recipient))
              || module_ptr_eqb recipient (Some (owner h))) eqn:Hto; [|done].
    destruct ((line_size_ msg >=? msg_size h) && (size_ msg =? msg_size h))
      eqn:Hsz; [|done].
    exfalso. apply Hd. apply andb_true_iff in Hsz as [Hls Hs].
    apply Z.geb_le in Hls. apply Z.eqb_eq in Hs.
    repeat split; [done| |lia|done].
    destruct recipient as [m|]; [|done]. simpl in Hto.
    unfold module_eqb in Hto. by apply N.eqb_eq in Hto.
Qed.

(** The loop of [handle_message] calls, in registry order, the nodes the
    comparator accepts and that pass the recipient and size tests. *)
Lemma handle_message_loop_step node sender recipient msg st :
  exists tr,
    dispatch_step st (handle_message_loop E node sender recipient msg st) tr
    /\ invoked_of tr
       = (fun h => (h, sender, msg))
         <$> filter (fun h => msg_comparator h (dsmemsg_id msg) = 0
                              /\ node_delivers recipient msg h) node.
Proof.
  revert st. induction node as [|h node IH]; intros st.
  - rewrite handle_message_loop_nil. exists [].
    split; [apply dispatch_step_refl|done].
  - rewrite handle_message_loop_cons.
    destruct (Z.eqb_spec (msg_comparator h (dsmemsg_id msg)) 0) as [Hc|Hc].
    + destruct (handle_message_node_step h sender recipient msg st)
        as (tr1 & H1 & Hi1).
      destruct (IH (handle_message_node E h sender recipient msg st))
        as (tr2 & H2 & Hi2).
      exists (tr1 ++ tr2). split; [by eapply dispatch_step_trans|].
      rewrite invoked_of_app, Hi1, Hi2.
      destruct (decide (node_delivers recipient msg h)) as [Hd|Hd].
      * by rewrite (filter_cons_True _ h).
      * rewrite (filter_cons_False _ h); [done|]. by intros [_ ?].
    + destruct (IH st) as (tr & H & Hi). exists tr. split; [done|].
      rewrite (filter_cons_False _ h); [done|]. by intros [? _].
Qed.

Lemma handle_message_step sender recipient msg st :
  exists tr,
    trace (handle_message E sender recipient msg st)
    = trace st
      ++ EvHandle {| from := sender; to := recipient; data := msg |} :: tr
    /\ dispatch_step
         (emit (EvHandle {| from := sender; to := recipient; data := msg |}) st)
         (handle_message E sender recipient msg st) tr
    /\ invoked_of tr
       = (fun h => (h, sender, msg))
         <$> filter (fun h => msg_comparator h (dsmemsg_id msg) = 0
                              /\ node_delivers recipient msg h)
               (callbacks st).
Proof.
  unfold handle_message.
  destruct (handle_message_loop_step (callbacks st) sender recipient msg
              (emit (EvHandle {| from := sender; to := recipient;
                                 data := msg |}) st))
    as (tr & Hs & Hi).
  exists tr. simpl in *. split; [|done].
  destruct Hs as (-> & _). simpl. by rewrite <- app_assoc.
Qed.

Lemma msg_comparator_zero h type :
  u32 (msg_type h) -> u32 type ->
  msg_comparator h type = 0 <-> msg_type h = type.
Proof.
  unfold u32, msg_comparator, to_gint, wrap32.
  change (2 ^ 32) with 4294967296. change (2 ^ 31) with 2147483648.
  intros Hh Ht. rewrite (Z.mod_small type) by lia.
  assert ((msg_type h - type) mod 4294967296
          = if msg_type h <? type then msg_type h - type + 4294967296
            else msg_type h - type) as ->.
  { destruct (Z.ltb_spec (msg_type h) type).
    - rewrite <- (Z_mod_plus_full (msg_type h - type) 1 4294967296).
      apply Z.mod_small. lia.
    - apply Z.mod_small. lia. }
  destruct (Z.ltb_spec (msg_type h) type);
    match goal with |- context [?a <? ?b] => destruct (Z.ltb_spec a b) end;
    lia.
Qed.

End DispatchFacts.

(** ** Draining the queue *)

Section DrainFacts.
Context {world : Type} (E : env world).
Implicit Types (st : state world) (tr : list event).

Lemma queue_step_refl st : queue_step st st [].
Proof. unfold queue_step. simpl. by rewrite !app_nil_r. Qed.

Lemma queue_step_trans st1 st2 st3 tr1 tr2 :
  queue_step st1 st2 tr1 -> queue_step st2 st3 tr2 ->
  queue_step st1 st3 (tr1 ++ tr2).
Proof.
  intros (Ht1 & Hq1) (Ht2 & Hq2). unfold queue_step.
  rewrite Ht2, Ht1, queued_of_app, handled_of_app, <- !app_assoc.
  split; [done|]. rewrite <- Hq2, !app_assoc. by rewrite Hq1.
Qed.

Lemma dispatch_step_queue st st' tr :
  dispatch_step st st' tr -> queue_step st st' tr.
Proof.
  intros (Ht & Hq & Hh & _). unfold queue_step. by rewrite Hh, Hq.
Qed.

Lemma queued_msg_eta (q : queued_msg_t) :
  {| from := from q; to := to q; data := data q |} = q.
Proof. by destruct q. Qed.

(** One iteration of the loop of [process_message_queue]. *)
Lemma process_message_queue_unfold fuel front rest st :
  message_queue st = front :: rest ->
  process_message_queue E (S fuel) st
  = process_message_queue E fuel
      (handle_message E (from front) (to front) (data front)
         (set_message_queue rest st)).
Proof.
  intros Hq. simpl. rewrite Hq. by rewrite g_slist_delete_link_head.
Qed.

Lemma process_message_queue_empty fuel st :
  message_queue st = [] -> process_message_queue E fuel st = Some st.
Proof. intros Hq. destruct fuel; simpl; by rewrite Hq. Qed.

(** When [process_message_queue] returns, the queue is empty, the
    registries are as before, and the envelopes handled are those that
    were queued at the start followed by those queued meanwhile. *)
Lemma process_message_queue_step fuel st st' :
  process_message_queue E fuel st = Some st' ->
  message_queue st' = []
  /\ modules st' = modules st
  /\ callbacks st' = callbacks st
  /\ exists tr,
       queue_step st st' tr
       /\ freed_handlers_of tr = [] /\ freed_modules_of tr = [].
Proof.
  revert st. induction fuel as [|fuel IH]; intros st.
  - simpl. destruct (message_queue st) as [|front rest] eqn:Hq; [|done].
    intros [= <-]. repeat split; [done|]. exists [].
    split; [apply queue_step_refl|done].
  - destruct (message_queue st) as [|front rest] eqn:Hq.
    + rewrite process_message_queue_empty by done. intros [= <-].
      repeat split; [done|]. exists []. split; [apply queue_step_refl|done].
    + rewrite (process_message_queue_unfold fuel front rest) by done.
      intros Hrun. apply IH in Hrun as (Hempty & Hm & Hc & tr2 & Hs2 & Hf2 & Hg2).
      destruct (handle_message_step E (from front) (to front) (data front)
                  (set_message_queue rest st)) as (tr1 & Ht1 & Hd1 & _).
      rewrite queued_msg_eta in Ht1, Hd1.
      destruct Hd1 as (_ & Hq1 & Hh1 & Hf1 & Hg1 & Hm1 & Hc1).
      simpl in *. rewrite Hm, Hm1, Hc, Hc1. repeat split; [done|].
      exists ((EvHandle front :: tr1) ++ tr2). split; [|split].
      * eapply queue_step_trans; [|exact Hs2].
        unfold queue_step. rewrite Ht1, Hq, Hq1. split; [done|].
        change (EvHandle front :: tr1) with ([EvHandle front] ++ tr1).
        rewrite queued_of_app, handled_of_app, Hh1. reflexivity.
      * change (EvHandle front :: tr1) with ([EvHandle front] ++ tr1).
        by rewrite !freed_handlers_of_app, Hf1, Hf2.
      * change (EvHandle front :: tr1) with ([EvHandle front] ++ tr1).
        by rewrite !freed_modules_of_app, Hg1, Hg2.
Qed.

(** More fuel does not change the result. *)
Lemma process_message_queue_fuel fuel fuel' st st' :
  process_message_queue E fuel st = Some st' -> (fuel <= fuel')%nat ->
  process_message_queue E fuel' st = Some st'.
Proof.
  revert fuel' st. induction fuel as [|fuel IH]; intros fuel' st.
  - simpl. destruct (message_queue st) eqn:Hq; [|done].
    intros [= <-] _. by apply process_message_queue_empty.
  - destruct (message_queue st) as [|front rest] eqn:Hq.
    + rewrite !process_message_queue_empty by done. done.
    + intros Hrun Hle. destruct fuel' as [|fuel']; [lia|].
      rewrite (process_message_queue_unfold fuel front rest) in Hrun by done.
      rewrite (process_message_queue_unfold fuel' front rest) by done.
      apply IH; [exact Hrun|lia].
Qed.

End DrainFacts.

(** ** Unloading *)

Section UnloadFacts.
Context {world : Type} (E : env world).
Implicit Types (st : state world) (tr : list event) (m : module_t).

Lemma module_eqb_false_iff x m : module_eqb x m = false <-> addr x <> addr m.
Proof. unfold module_eqb. apply N.eqb_neq. Qed.

Lemma module_eqb_true_iff x m : module_eqb x m = true <-> addr x = addr m.
Proof. unfold module_eqb. apply N.eqb_eq. Qed.

Lemma g_slist_find_module_none m l :
  g_slist_find module_eqb l m = [] <-> ~ registered m l.
Proof.
  rewrite g_slist_find_none. unfold registered.
  rewrite <- Forall_Exists_neg. apply Forall_proper; [|done].
  intros x. apply module_eqb_false_iff.
Qed.

(** [unload_module] on a module that is not loaded. *)
Lemma unload_module_not_registered m st :
  ~ registered m (modules st) -> unload_module E m st = (-1, st).
Proof.
  intros Hn. apply g_slist_find_module_none in Hn.
  unfold unload_module. by rewrite Hn.
Qed.

(** [unload_module] on a loaded module. *)
Lemma unload_module_registered m st :
  registered m (modules st) ->
  exists st' pre x rest tr,
    unload_module E m st = (0, st')
    /\ modules st = pre ++ x :: rest
    /\ addr x = addr m
    /\ Forall (fun y => addr y <> addr m) pre
    /\ modules st' = pre ++ rest
    /\ callbacks st' = filter (fun h => ~ owned_by m h) (callbacks st)
    /\ trace st'
       = trace st ++ (EvFreeHandler <$> filter (owned_by m) (callbacks st))
         ++ tr ++ [EvFreeModule m]
    /\ message_queue st' = message_queue st ++ queued_of tr
    /\ handled_of tr = [] /\ invoked_of tr = []
    /\ freed_handlers_of tr = [] /\ freed_modules_of tr = []
    /\ finalization_events E m tr.
Proof.
  intros Hreg. unfold unload_module.
  destruct (g_slist_find module_eqb (modules st) m) as [|x rest] eqn:Hfind.
  { apply g_slist_find_module_none in Hfind. done. }
  apply g_slist_find_some in Hfind as (pre & Hmods & Hx & Hpre).
  apply module_eqb_true_iff in Hx.
  assert (Forall (fun y => addr y <> addr m) pre) as Hpre'.
  { eapply Forall_impl; [exact Hpre|]. intros y. apply module_eqb_false_iff. }
  destruct (remove_msghandlers_spec m st)
    as (Hc1 & Ht1 & Hm1 & Hq1 & Hh1 & Hp1 & Ha1).
  set (st1 := remove_msghandlers m st) in *.
  unfold finalization_events.
  destruct (handle m) as [h|].
  - destruct (dlsym_module_fini E h) as [finifunc|].
    + destruct (run_plugin_step E finifunc
                  (emit (EvModuleFini m)
                     (set_currently_handling_module (Some m) st1)))
        as (tr' & Ht & Hp & Hq & Hm & Hc & _).
      destruct (plugin_events_silent tr' Hp) as (S1 & S2 & S3 & S4).
      eexists _, pre, x, rest, (EvModuleFini m :: tr' ++ [EvDlclose h]).
      split; [reflexivity|]. simpl in *.
      rewrite Hm, Hm1, Hc, Hc1, Ht, Ht1, Hq, Hq1, Hmods.
      rewrite g_slist_delete_link_suffix.
      change (EvModuleFini m :: tr' ++ [EvDlclose h])
        with ([EvModuleFini m] ++ tr' ++ [EvDlclose h]).
      rewrite !queued_of_app, !handled_of_app, !invoked_of_app,
        !freed_handlers_of_app, !freed_modules_of_app, S1, S2, S3, S4.
      simpl. rewrite !app_nil_r, <- !app_assoc. simpl.
      repeat split; try done. by exists tr'.
    + eexists _, pre, x, rest, [EvDlclose h].
      split; [reflexivity|]. simpl in *.
      rewrite Hm1, Hc1, Ht1, Hq1, Hmods, g_slist_delete_link_suffix.
      rewrite !app_nil_r, <- !app_assoc. by repeat split.
  - eexists _, pre, x, rest, [].
    split; [reflexivity|]. simpl in *.
    rewrite Hm1, Hc1, Ht1, Hq1, Hmods, g_slist_delete_link_suffix.
    rewrite !app_nil_r, <- !app_assoc. by repeat split.
Qed.

(** Unloading the first module of the registry removes it. *)
Lemma unload_module_head m rest st :
  modules st = m :: rest ->
  exists st' tr,
    unload_module E m st = (0, st')
    /\ modules st' = rest
    /\ queue_step st st' tr
    /\ freed_modules_of tr = [m]
    /\ Forall (fun h => ~ owned_by m h) (callbacks st').
Proof.
  intros Hmods.
  destruct (unload_module_registered m st)
    as (st' & pre & x & rest' & tr & Hrun & Hm & Hx & Hpre & Hm' & Hc & Ht
        & Hq & Hh & Hi & Hf & Hg & _).
  { unfold registered. rewrite Hmods. by left. }
  assert (pre = []) as ->.
  { destruct pre as [|y pre]; [done|]. rewrite Hmods in Hm.
    injection Hm as <- _. by inversion Hpre. }
  rewrite Hmods in Hm. injection Hm as <- <-.
  eexists st', _. split; [done|]. split; [done|]. split; [|split].
  - unfold queue_step. split; [exact Ht|].
    destruct (fmap_free_handler_silent (filter (owned_by m) (callbacks st)))
      as (Q1 & Q2 & _).
    rewrite !queued_of_app, !handled_of_app, Q1, Q2, Hh, Hq. simpl.
    by rewrite !app_nil_r.
  - destruct (fmap_free_handler_silent (filter (owned_by m) (callbacks st)))
      as (_ & _ & _ & Q4).
    by rewrite !freed_modules_of_app, Q4, Hg.
  - rewrite Hc. apply Forall_forall. intros h Hh'.
    by apply list_elem_of_filter in Hh' as [? _].
Qed.

End UnloadFacts.

(** ** Shutdown *)

Section ShutdownFacts.
Context {world : Type} (E : env world).
Implicit Types (st : state world) (tr : list event) (m : module_t).

Lemma modulebase_shutdown_loop_done fuel n st :
  modules st = [] -> modulebase_shutdown_loop E fuel n st = Some st.
Proof. intros Hm. destruct n; simpl; by rewrite Hm. Qed.

(** One iteration of the loop of [modulebase_shutdown]. *)
Lemma modulebase_shutdown_loop_unfold fuel n m rest st st1 :
  modules st = m :: rest ->
  process_message_queue E fuel st = Some st1 ->
  modulebase_shutdown_loop E fuel (S n) st
  = modulebase_shutdown_loop E fuel n (snd (unload_module E m st1)).
Proof.
  intros Hm Hd. cbn [modulebase_shutdown_loop]. rewrite Hm, Hd. simpl.
  apply process_message_queue_step in Hd as (_ & Hm1 & _).
  rewrite Hm1, Hm. by destruct (unload_module E m st1).
Qed.

Lemma modulebase_shutdown_loop_step fuel n st st' :
  modulebase_shutdown_loop E fuel n st = Some st' ->
  modules st' = []
  /\ (forall stf, process_message_queue E fuel st' = Some stf ->
                  shutdown_run E fuel st stf)
  /\ exists tr, queue_step st st' tr /\ freed_modules_of tr = modules st.
Proof.
  revert st. induction n as [|n IH]; intros st.
  - simpl. destruct (modules st) eqn:Hm; [|done]. intros [= <-].
    split; [done|]. split; [intros stf; by apply shutdown_final|].
    exists []. split; [apply queue_step_refl|done].
  - destruct (modules st) as [|m rest] eqn:Hm.
    + rewrite modulebase_shutdown_loop_done by done. intros [= <-].
      split; [done|]. split; [intros stf; by apply shutdown_final|].
      exists []. split; [apply queue_step_refl|done].
    + destruct (process_message_queue E fuel st) as [st1|] eqn:Hd;
        [|simpl; rewrite Hm, Hd; done].
      rewrite (modulebase_shutdown_loop_unfold fuel n m rest st st1) by done.
      pose proof Hd as Hd'.
      apply process_message_queue_step in Hd'
        as (_ & Hm1 & _ & tr1 & Hs1 & _ & Hg1).
      destruct (unload_module_head E m rest st1)
        as (st2 & tr2 & Hu & Hm2 & Hs2 & Hg2 & _); [congruence|].
      rewrite Hu. simpl. intros Hrun.
      apply IH in Hrun as (Hend & Hspec & tr3 & Hs3 & Hg3).
      split; [done|]. split.
      * intros stf Hf. eapply shutdown_unload; eauto.
      * exists ((tr1 ++ tr2) ++ tr3). split.
        { eapply queue_step_trans; [|exact Hs3].
          by eapply queue_step_trans. }
        by rewrite !freed_modules_of_app, Hg1, Hg2, Hg3, Hm2.
Qed.

End ShutdownFacts.

(** ** Loading *)

Section LoadFacts.
Context {world : Type} (E : env world).
Implicit Types (st : state world) (tr : list event) (m : module_t).

Lemma load_module_dlopen_frame filename st :
  let st' := snd (load_module_dlopen E filename st) in
  modules st' = modules st /\ callbacks st' = callbacks st
  /\ message_queue st' = message_queue st /\ trace st' = trace st.
Proof.
  unfold load_module_dlopen, do_malloc.
  destruct (negb _); simpl.
  - destruct (malloc E (mallocs st)); simpl.
    + by destruct (dlopen E ("./" +:+ filename)).
    + done.
  - done.
Qed.

Lemma load_module_init_frame m h st :
  modules (load_module_init E m h st) = modules st
  /\ callbacks (load_module_init E m h st) = callbacks st.
Proof.
  unfold load_module_init. destruct (dlsym_module_init E h) as [f|]; [|done].
  destruct (run_plugin_step E (f m)
              (emit (EvModuleInit m)
                 (set_currently_handling_module (Some m) st)))
    as (tr & _ & _ & _ & Hm & Hc & _).
  simpl in *. by rewrite Hm, Hc.
Qed.

(** Registering the handler table of [m] adds handlers owned by [m]
    only, and nothing else changes. *)
Lemma add_msghandlers_loop_frame table m st :
  let st' := snd (add_msghandlers_loop E table m st) in
  modules st' = modules st
  /\ filter (fun h => ~ owned_by m h) (callbacks st')
     = filter (fun h => ~ owned_by m h) (callbacks st)
  /\ message_queue st' = message_queue st /\ trace st' = trace st.
Proof.
  revert st. induction table as [|e table IH]; intros st; simpl; [done|].
  destruct (fn_callback e =? 0)%N; [done|].
  unfold add_single_handler, do_malloc.
  destruct (malloc E (mallocs st)); simpl; [|done].
  match goal with
  | |- context [add_msghandlers_loop E table m ?s] =>
      destruct (IH s) as (-> & -> & -> & ->)
  end.
  simpl. repeat split.
  apply g_slist_insert_sorted_filter. intros Hn. by apply Hn.
Qed.

(** The [error:] exit of [load_module] for an allocated module. *)
Lemma load_module_error_spec m h st :
  let st' := snd (load_module_error (Some m) (Some h) st) in
  fst (load_module_error (Some m) (Some h) st) = None
  /\ modules st' = modules st
  /\ callbacks st' = filter (fun x => ~ owned_by m x) (callbacks st)
  /\ message_queue st' = message_queue st
  /\ trace st'
     = trace st ++ EvLog LOG_CRIT
       :: (EvFreeHandler <$> filter (owned_by m) (callbacks st))
       ++ [EvFreeModule m; EvDlclose h].
Proof.
  unfold load_module_error. simpl.
  destruct (remove_msghandlers_spec m (dsme_log LOG_CRIT st))
    as (Hc & Ht & Hm & Hq & _).
  simpl in *. rewrite Hc, Ht, Hm, Hq.
  repeat split. by rewrite <- !app_assoc.
Qed.

End LoadFacts.

(** ** Invariants of the module registry *)

Section ModuleRegistryFacts.
Context {world : Type} (E : env world).
Implicit Types (st : state world) (m : module_t).

(** A loaded module is appended to the registry; a failed load leaves
    the registry as it was. *)
Lemma load_module_modules filename prio st :
  modules (snd (load_module E filename prio st))
  = match fst (load_module E filename prio st) with
    | Some m => modules st ++ [m]
    | None => modules st
    end.
Proof.
  unfold load_module.
  destruct (load_module_dlopen_frame E filename st) as (Hm1 & _).
  destruct (load_module_dlopen E filename st) as [[h|] st1]; simpl in Hm1;
    [|exact Hm1].
  destruct (do_malloc E st1) as [[a|] st2] eqn:H2;
    unfold do_malloc in H2; injection H2 as _ <-; [|exact Hm1].
  match goal with
  | |- context [do_malloc E ?s] =>
      destruct (do_malloc E s) as [[d|] st3] eqn:H3;
      unfold do_malloc in H3; injection H3 as _ <-
  end.
  - set (m := {| addr := a; name := filename; priority := prio;
                 handle := Some h |}).
    match goal with
    | |- context [add_msghandlers E (Some m) ?s] =>
        pose proof (add_msghandlers_loop_frame E (message_handlers_of E m) m s)
          as (Hm5 & _);
        change (add_msghandlers_loop E (message_handlers_of E m) m s)
          with (add_msghandlers E (Some m) s) in Hm5;
        pose proof (load_module_error_spec m h
                      (snd (add_msghandlers E (Some m) s)))
          as (_ & Hm6 & _);
        destruct (add_msghandlers E (Some m) s) as [r s5] eqn:Hadd
    end.
    simpl in Hm5, Hm6.
    match type of Hm5 with
    | _ = modules (load_module_init E m h ?s) =>
        destruct (load_module_init_frame E m h s) as (Hm4 & _)
    end.
    destruct (r =? 0); simpl.
    + unfold g_slist_append. rewrite Hm5, Hm4. simpl. by rewrite Hm1.
    + rewrite Hm6, Hm5, Hm4. simpl. exact Hm1.
  - match goal with
    | |- context [load_module_error (Some ?m) (Some h) ?s] =>
        destruct (load_module_error_spec m h s) as (Hr & Hm6 & _)
    end.
    rewrite Hr, Hm6. simpl. exact Hm1.
Qed.

(** Loading a module whose record is at an address not in use keeps the
    addresses of the registry distinct. *)
Lemma load_module_NoDup filename prio st m st' :
  load_module E filename prio st = (Some m, st') ->
  addr m ∉ addr <$> modules st ->
  NoDup (addr <$> modules st) ->
  NoDup (addr <$> modules st').
Proof.
  intros Hload Hfresh Hnd.
  pose proof (load_module_modules filename prio st) as Hm.
  rewrite Hload in Hm. simpl in Hm. rewrite Hm, fmap_app. simpl.
  apply NoDup_app. split; [done|]. split; [|apply NoDup_singleton].
  intros x Hx Hx'. apply list_elem_of_singleton in Hx'. by subst.
Qed.

(** Unloading keeps them distinct. *)
Lemma unload_module_NoDup m st :
  NoDup (addr <$> modules st) ->
  NoDup (addr <$> modules (snd (unload_module E m st))).
Proof.
  intros Hnd. destruct (decide (registered m (modules st))) as [Hreg|Hreg].
  - destruct (unload_module_registered E m st Hreg)
      as (st' & pre & x & rest & tr & -> & Hm & _ & _ & Hm' & _).
    simpl. rewrite Hm', fmap_app. rewrite Hm, fmap_app, fmap_cons in Hnd.
    apply NoDup_app in Hnd as (Hpre & Hdisj & Hrest).
    apply NoDup_cons in Hrest as [_ Hrest].
    apply NoDup_app. repeat split; [done| |done].
    intros y Hy Hy'. apply (Hdisj y Hy). by right.
  - by rewrite unload_module_not_registered.
Qed.

End ModuleRegistryFacts.

(** ** A drain that does not return *)

(** The drain of the echoing daemon exhausts every bound on the number
    of its iterations: each message handled queues the next. *)
Lemma drain_may_not_return fuel st :
  callbacks st = [Loop.handler] ->
  (exists s, message_queue st
             = [ {| from := s; to := None; data := Loop.ping |} ]) ->
  process_message_queue Loop.E fuel st = None.
Proof.
  revert st. induction fuel as [|fuel IH]; intros st Hcb [s Hq].
  - simpl. by rewrite Hq.
  - rewrite (process_message_queue_unfold Loop.E fuel _ [] st Hq).
    cbn [from to data]. apply IH.
    + destruct (handle_message_step Loop.E s None Loop.ping
                  (set_message_queue [] st)) as (tr & _ & Hd & _).
      destruct Hd as (_ & _ & _ & _ & _ & _ & Hc). simpl in Hc.
      by rewrite Hc.
    + unfold handle_message. simpl. rewrite Hcb.
      rewrite handle_message_loop_cons, handle_message_loop_nil.
      eexists. reflexivity.
Qed.

Example echo_drain_never_returns fuel :
  process_message_queue Loop.E fuel Loop.st0 = None.
Proof. apply drain_may_not_return; [done|]. by eexists. Qed.

(** ** A drain that returns *)

Section QuietFacts.
Context {world : Type} (E : env world).
Implicit Types (st : state world).

(** The handlers queue nothing. *)
Hypothesis quiet : forall f s m w, (handler_fn E f s m w).2 = [].

Lemma handle_message_node_quiet h sender recipient msg st :
  message_queue (handle_message_node E h sender recipient msg st)
  = message_queue st.
Proof.
  unfold handle_message_node.
  destruct (negb (callback h =? 0)%N); [|done].
  destruct (negb _ || _); [|done].
  destruct (_ && _); [|done].
  unfold run_plugin. simpl.
  specialize (quiet (callback h) sender msg (plugins st)).
  destruct (handler_fn E (callback h) sender msg (plugins st)) as [w acts].
  simpl in quiet. by subst acts.
Qed.

Lemma handle_message_loop_quiet node sender recipient msg st :
  message_queue (handle_message_loop E node sender recipient msg st)
  = message_queue st.
Proof.
  revert st. induction node as [|h node IH]; intros st.
  - by rewrite handle_message_loop_nil.
  - rewrite handle_message_loop_cons.
    destruct (msg_comparator h (dsmemsg_id msg) =? 0); [|apply IH].
    rewrite IH. apply handle_message_node_quiet.
Qed.

(** With handlers that queue nothing, a drain returns after one
    iteration for each envelope of the queue. *)
Lemma process_message_queue_returns st :
  exists st',
    process_message_queue E (length (message_queue st)) st = Some st'.
Proof.
  remember (length (message_queue st)) as n eqn:Hn.
  revert st Hn. induction n as [|n IH]; intros st Hn.
  - destruct (message_queue st) eqn:Hq; [|done].
    exists st. simpl. by rewrite Hq.
  - destruct (message_queue st) as [|front rest] eqn:Hq; [done|].
    rewrite (process_message_queue_unfold E n front rest st Hq).
    apply IH. unfold handle_message. rewrite handle_message_loop_quiet.
    simpl in *. lia.
Qed.

End QuietFacts.

(** * The claims of the specification *)

(** C1 (the code departs from the claim). The claim asks that the handler
    registry is ordered by message type descending and, within a type, by
    owner priority descending. [sort_comparator] returns a positive
    number for a new handler of greater type or priority, and
    [g_slist_insert_sorted_with_data] places a new node after the nodes
    for which the comparator is positive, so the registry is kept in
    ascending order ([register_all_ascending]). Here: handlers for type
    0x10 registered by a module of priority 5 and then by one of priority
    9 stand in the order 5, 9, the registry is not in the descending
    order of the claim, and a broadcast of that type calls the handler of
    priority 5 first. *)
Theorem C1_registry_is_ascending :
  callbacks (register_all (Example.E None) Example.registrations Example.st0)
    = [Example.hA; Example.hB]
  /\ ~ StronglySorted registry_descending
         (callbacks
            (register_all (Example.E None) Example.registrations Example.st0))
  /\ callbacks Example.loaded = [Example.hA; Example.hB; Example.hB']
  /\ ~ StronglySorted registry_descending (callbacks Example.loaded)
  /\ StronglySorted registry_ascending (callbacks Example.loaded)
  /\ process_message_queue (Example.E None) 4 Example.cascade_start
     = Some Example.cascade_end
  /\ (fun c => c.1.1) <$> invoked_of (trace Example.cascade_end)
     = [Example.hA; Example.hB; Example.hB'].
Proof.
  assert (Hnot : forall l,
             ~ StronglySorted registry_descending
                 (Example.hA :: Example.hB :: l)).
  { intros l Hs. inversion Hs as [|? ? _ Hf]. inversion Hf as [|? ? Hd _].
    unfold registry_descending in Hd. simpl in Hd. lia. }
  split; [by vm_compute|]. split; [exact (Hnot [])|].
  split; [by vm_compute|]. split; [exact (Hnot [_])|].
  split; [|split; by vm_compute].
  change (callbacks Example.loaded)
    with (callbacks
            (snd (load_module (Example.E None) "libb.so" 9
                    (snd (load_module (Example.E None) "liba.so" 5
                            Example.st0))))).
  assert (callbacks Example.loaded = [Example.hA; Example.hB; Example.hB'])
    as Hcb by by vm_compute.
  unfold Example.loaded in Hcb. rewrite Hcb.
  repeat constructor; unfold registry_ascending; simpl; lia.
Qed.

(** C2. For an envelope [(sender, recipient, msg)] passed to
    [handle_message], the callbacks invoked are, in registry order,
    those of the registered handlers whose message type is the type
    identifier of the message, whose owner is the recipient unless the
    message is a broadcast, whose expected size is at most the total
    size of the message and is exactly its declared size; so a handler's
    callback is invoked if and only if these conditions hold. Type
    identifiers are 32-bit values and registered callbacks are not
    NULL. *)
Theorem C2_dispatch_delivers_iff {world : Type} (E : env world)
    (sender : endpoint_t) (recipient : option module_t)
    (msg : dsmemsg_generic_t) (st : state world) :
  u32 (type_ msg) ->
  Forall (fun h => u32 (msg_type h) /\ callback h <> 0%N) (callbacks st) ->
  exists tr,
    trace (handle_message E sender recipient msg st) = trace st ++ tr
    /\ invoked_of tr
       = (fun h => (h, sender, msg))
         <$> filter (spec_delivers recipient msg) (callbacks st)
    /\ forall h, h ∈ callbacks st ->
         ((h, sender, msg) ∈ invoked_of tr <-> spec_delivers recipient msg h).
Proof.
  intros Hmsg Hreg.
  destruct (handle_message_step E sender recipient msg st)
    as (tr & Ht & _ & Hi).
  assert (forall l,
             Forall (fun h => u32 (msg_type h) /\ callback h <> 0%N) l ->
             filter (fun h => msg_comparator h (dsmemsg_id msg) = 0
                              /\ node_delivers recipient msg h) l
             = filter (spec_delivers recipient msg) l) as Hf.
  { induction 1 as [|h l [Hh Hcb] _ IH]; [done|].
    assert (msg_comparator h (dsmemsg_id msg) = 0
            /\ node_delivers recipient msg h
            <-> spec_delivers recipient msg h) as Hiff.
    { unfold dsmemsg_id. rewrite msg_comparator_zero by done.
      unfold node_delivers, spec_delivers. tauto. }
    destruct (decide (spec_delivers recipient msg h)) as [Hd|Hd].
    - rewrite !filter_cons_True by tauto. by rewrite IH.
    - rewrite !filter_cons_False by tauto. exact IH. }
  exists (EvHandle {| from := sender; to := recipient; data := msg |} :: tr).
  split; [done|].
  assert (invoked_of
            (EvHandle {| from := sender; to := recipient; data := msg |} :: tr)
          = invoked_of tr) as -> by done.
  rewrite Hi, Hf by done. split; [done|].
  intros h Hh. rewrite list_elem_of_fmap. split.
  - intros (h' & [= <-] & Hin). by apply list_elem_of_filter in Hin as [? _].
  - intros Hd. exists h. split; [done|]. by apply list_elem_of_filter.
Qed.

Lemma C2_witness :
  u32 (type_ Example.msg10)
  /\ Forall (fun h => u32 (msg_type h) /\ callback h <> 0%N)
       (callbacks Example.loaded)
  /\ exists tr,
       trace (handle_message (Example.E None) Example.nobody None
                Example.msg10 Example.loaded)
       = trace Example.loaded ++ tr
       /\ invoked_of tr
          = (fun h => (h, Example.nobody, Example.msg10))
            <$> filter (spec_delivers None Example.msg10)
                  (callbacks Example.loaded)
       /\ forall h, h ∈ callbacks Example.loaded ->
            ((h, Example.nobody, Example.msg10) ∈ invoked_of tr
             <-> spec_delivers None Example.msg10 h).
Proof.
  assert (H1 : u32 (type_ Example.msg10)) by (unfold u32; simpl; lia).
  assert (H2 : Forall (fun h => u32 (msg_type h) /\ callback h <> 0%N)
                 (callbacks Example.loaded)).
  { assert (callbacks Example.loaded
            = [Example.hA; Example.hB; Example.hB']) as -> by by vm_compute.
    repeat constructor; unfold u32; simpl; lia. }
  split; [exact H1|]. split; [exact H2|].
  exact (C2_dispatch_delivers_iff (Example.E None) Example.nobody None
           Example.msg10 Example.loaded H1 H2).
Defined.

(** C3. When [process_message_queue] returns, the message queue is
    empty, and the envelopes it passed to [handle_message] are, in this
    order, the envelopes that were in the queue at the start followed by
    every envelope queued while it ran: what the handlers called during
    the drain queued, cascades included, was handled by the same drain,
    in FIFO order. *)
Theorem C3_drain_handles_cascades {world : Type} (E : env world)
    (fuel : nat) (st st' : state world) :
  process_message_queue E fuel st = Some st' ->
  message_queue st' = []
  /\ exists tr,
       trace st' = trace st ++ tr
       /\ handled_of tr = message_queue st ++ queued_of tr.
Proof.
  intros Hrun.
  apply process_message_queue_step in Hrun
    as (Hempty & _ & _ & tr & (Ht & Hq) & _).
  split; [done|]. exists tr. split; [done|].
  by rewrite Hq, Hempty, app_nil_r.
Qed.

Lemma C3_witness :
  process_message_queue (Example.E None) 4 Example.cascade_start
  = Some Example.cascade_end
  /\ message_queue Example.cascade_end = []
  /\ exists tr,
       trace Example.cascade_end = trace Example.cascade_start ++ tr
       /\ handled_of tr
          = message_queue Example.cascade_start ++ queued_of tr.
Proof.
  assert (H : process_message_queue (Example.E None) 4 Example.cascade_start
              = Some Example.cascade_end) by (vm_compute; reflexivity).
  split; [exact H|].
  exact (C3_drain_handles_cascades (Example.E None) 4 Example.cascade_start
           Example.cascade_end H).
Defined.

(** C4. When [modulebase_shutdown] returns, it has drained the queue and
    then unloaded the first remaining module until no module remained,
    and drained the queue once more ([shutdown_run]); the message queue
    and the module registry are empty; the modules were released in
    registry order; and every envelope that was queued before or during
    the shutdown, those queued by finalizers included, was passed to
    [handle_message] before it returned. *)
Theorem C4_shutdown {world : Type} (E : env world)
    (fuel : nat) (st st' : state world) :
  modulebase_shutdown E fuel st = Some st' ->
  shutdown_run E fuel st st'
  /\ message_queue st' = []
  /\ modules st' = []
  /\ exists tr,
       trace st' = trace st ++ tr
       /\ handled_of tr = message_queue st ++ queued_of tr
       /\ freed_modules_of tr = modules st.
Proof.
  unfold modulebase_shutdown. intros Hrun.
  destruct (modulebase_shutdown_loop E fuel fuel st) as [st1|] eqn:Hloop;
    [|done].
  simpl in Hrun.
  apply modulebase_shutdown_loop_step in Hloop
    as (Hm1 & Hspec & tr1 & Hs1 & Hg1).
  pose proof (Hspec st' Hrun) as Hsr.
  apply process_message_queue_step in Hrun
    as (Hempty & Hm & _ & tr2 & Hs2 & _ & Hg2).
  split; [done|]. split; [done|]. split; [congruence|].
  destruct (queue_step_trans _ _ _ _ _ Hs1 Hs2) as (Ht & Hq).
  exists (tr1 ++ tr2). split; [done|]. split.
  - by rewrite Hq, Hempty, app_nil_r.
  - by rewrite freed_modules_of_app, Hg1, Hg2, app_nil_r.
Qed.

Lemma C4_witness :
  modulebase_shutdown (Example.E None) 4 Example.loaded = Some Example.shut
  /\ shutdown_run (Example.E None) 4 Example.loaded Example.shut
  /\ message_queue Example.shut = []
  /\ modules Example.shut = []
  /\ exists tr,
       trace Example.shut = trace Example.loaded ++ tr
       /\ handled_of tr = message_queue Example.loaded ++ queued_of tr
       /\ freed_modules_of tr = modules Example.loaded.
Proof.
  assert (H : modulebase_shutdown (Example.E None) 4 Example.loaded
              = Some Example.shut) by (vm_compute; reflexivity).
  split; [exact H|].
  exact (C4_shutdown (Example.E None) 4 Example.loaded Example.shut H).
Defined.

(** In the concrete daemon the broadcast of the finalizer of [liba.so]
    is handled during the shutdown by the handler of [libb.so], which is
    still loaded then, and no longer by the handler of [liba.so]. *)
Example shutdown_delivers_finalizer_broadcast :
  (fun c => c.1.1) <$> invoked_of (trace Example.shut)
  = [Example.hB; Example.hB'].
Proof. by vm_compute. Qed.

(** C5. When [load_module] has opened the code and allocated the module
    record and then fails to register the handler table, it returns NULL
    after a rollback: the handler registry holds no handler owned by the
    module and every other handler as before the call, the module
    registry is as before the call, and after the failure the handlers
    registered for the module are released, then the module record, then
    the loaded code. *)
Theorem C5_load_rollback {world : Type} (E : env world)
    (filename : string) (prio : Z) (st st1 st2 st3 : state world)
    (h a d : N) :
  load_module_dlopen E filename st = (Some h, st1) ->
  do_malloc E st1 = (Some a, st2) ->
  do_malloc E st2 = (Some d, st3) ->
  let m := {| addr := a; name := filename;
              priority := prio; handle := Some h |} in
  let st4 := load_module_init E m h st3 in
  let st5 := snd (add_msghandlers E (Some m) st4) in
  fst (add_msghandlers E (Some m) st4) <> 0 ->
  exists st',
    load_module E filename prio st = (None, st')
    /\ modules st' = modules st
    /\ callbacks st' = filter (fun x => ~ owned_by m x) (callbacks st)
    /\ Forall (fun x => ~ owned_by m x) (callbacks st')
    /\ trace st'
       = trace st5 ++ EvLog LOG_CRIT
         :: (EvFreeHandler <$> filter (owned_by m) (callbacks st5))
         ++ [EvFreeModule m; EvDlclose h].
Proof.
  intros Hopen Hmod Hdup m st4 st5 Hfail.
  destruct (load_module_dlopen_frame E filename st) as (Hm1 & Hc1 & _).
  rewrite Hopen in Hm1, Hc1. simpl in Hm1, Hc1.
  assert (modules st3 = modules st1 /\ callbacks st3 = callbacks st1)
    as [Hm3 Hc3].
  { unfold do_malloc in Hmod, Hdup.
    injection Hmod as _ <-. injection Hdup as _ <-. done. }
  destruct (load_module_init_frame E m h st3) as (Hm4 & Hc4).
  destruct (add_msghandlers_loop_frame E (message_handlers_of E m) m st4)
    as (Hm5 & Hc5 & _).
  destruct (load_module_error_spec m h st5) as (Hr & Hm6 & Hc6 & _ & Ht6).
  exists (snd (load_module_error (Some m) (Some h) st5)).
  split; [|split; [|split; [|split]]].
  - unfold load_module. rewrite Hopen, Hmod, Hdup.
    fold m. fold st4. subst st5.
    destruct (add_msghandlers E (Some m) st4) as [r s] eqn:Hadd.
    simpl in *. apply Z.eqb_neq in Hfail. rewrite Hfail. simpl.
    reflexivity.
  - rewrite Hm6. subst st5. simpl. rewrite Hm5. subst st4. congruence.
  - rewrite Hc6. subst st5. simpl. rewrite Hc5. subst st4. congruence.
  - rewrite Hc6. apply Forall_forall. intros x Hx.
    by apply list_elem_of_filter in Hx as [? _].
  - exact Ht6.
Qed.

Lemma C5_witness :
  let E := Example.E (Some 8%nat) in
  let st := Example.loadedA in
  let st1 := snd (load_module_dlopen E "libb.so" st) in
  let st2 := snd (do_malloc E st1) in
  let st3 := snd (do_malloc E st2) in
  let m := {| addr := 4101; name := "libb.so";
              priority := 9; handle := Some 2%N |} in
  let st5 := snd (add_msghandlers E (Some m) (load_module_init E m 2 st3)) in
  load_module_dlopen E "libb.so" st = (Some 2%N, st1)
  /\ do_malloc E st1 = (Some 4101%N, st2)
  /\ do_malloc E st2 = (Some 4102%N, st3)
  /\ fst (add_msghandlers E (Some m) (load_module_init E m 2 st3)) <> 0
  /\ exists st',
       load_module E "libb.so" 9 st = (None, st')
       /\ modules st' = modules st
       /\ callbacks st' = filter (fun x => ~ owned_by m x) (callbacks st)
       /\ Forall (fun x => ~ owned_by m x) (callbacks st')
       /\ trace st'
          = trace st5 ++ EvLog LOG_CRIT
            :: (EvFreeHandler <$> filter (owned_by m) (callbacks st5))
            ++ [EvFreeModule m; EvDlclose 2].
Proof.
  intros E st st1 st2 st3 m st5.
  assert (H1 : load_module_dlopen E "libb.so" st = (Some 2%N, st1))
    by (vm_compute; reflexivity).
  assert (H2 : do_malloc E st1 = (Some 4101%N, st2))
    by (vm_compute; reflexivity).
  assert (H3 : do_malloc E st2 = (Some 4102%N, st3))
    by (vm_compute; reflexivity).
  assert (H4 : fst (add_msghandlers E (Some m) (load_module_init E m 2 st3))
               <> 0) by (vm_compute; discriminate).
  split; [exact H1|]. split; [exact H2|]. split; [exact H3|].
  split; [exact H4|].
  exact (C5_load_rollback E "libb.so" 9 st st1 st2 st3 2 4101 4102
           H1 H2 H3 H4).
Defined.

(** In the concrete daemon the failed load of [libb.so] leaves the
    registries as they were, and the one handler that was registered for
    it is released before the module record and the code. *)
Example load_failure_rolls_back :
  let r := load_module (Example.E (Some 8%nat)) "libb.so" 9 Example.loadedA in
  fst r = None
  /\ modules (snd r) = [Example.modA]
  /\ callbacks (snd r) = [Example.hA]
  /\ drop (length (trace Example.loadedA)) (trace (snd r))
     = [EvLog LOG_CRIT;
        EvFreeHandler
          {| msg_type := 16; msg_size := 8; callback := 2;
             owner := Example.modB |};
        EvFreeModule Example.modB; EvDlclose 2].
Proof. by vm_compute. Qed.

(** C6. [unload_module] on a module that is not in the module registry
    returns -1 and changes nothing. On a registered module it returns 0;
    its first effect is to release every handler registration the module
    owns, and only then the finalization step runs, during which no
    registration is released, no envelope is handled and no callback is
    invoked; afterwards the registry holds no handler owned by the
    module, the other handlers are as before, and the module is no
    longer in the module registry (in which an address occurs once). *)
Theorem C6_unload {world : Type} (E : env world)
    (m : module_t) (st : state world) :
  (~ registered m (modules st) -> unload_module E m st = (-1, st))
  /\ (registered m (modules st) ->
      exists st' tr,
        unload_module E m st = (0, st')
        /\ trace st'
           = trace st
             ++ (EvFreeHandler <$> filter (owned_by m) (callbacks st))
             ++ tr ++ [EvFreeModule m]
        /\ finalization_events E m tr
        /\ freed_handlers_of tr = []
        /\ handled_of tr = [] /\ invoked_of tr = []
        /\ callbacks st' = filter (fun h => ~ owned_by m h) (callbacks st)
        /\ Forall (fun h => ~ owned_by m h) (callbacks st')
        /\ (NoDup (addr <$> modules st) -> ~ registered m (modules st'))).
Proof.
  split; [apply unload_module_not_registered|].
  intros Hreg.
  destruct (unload_module_registered E m st Hreg)
    as (st' & pre & x & rest & tr & Hrun & Hm & Hx & Hpre & Hm' & Hc & Ht
        & Hq & Hh & Hi & Hf & Hg & Hfin).
  exists st', tr. repeat split; try done.
  - rewrite Hc. apply Forall_forall. intros h Hh'.
    by apply list_elem_of_filter in Hh' as [? _].
  - intros Hnd. rewrite Hm'. rewrite Hm in Hnd.
    rewrite fmap_app, fmap_cons in Hnd.
    apply NoDup_app in Hnd as (_ & _ & Hnd).
    apply NoDup_cons in Hnd as [Hnotin _].
    unfold registered. rewrite Exists_app, !Exists_exists.
    intros [(y & Hy & Hay)|(y & Hy & Hay)].
    + rewrite Forall_forall in Hpre. by apply (Hpre y).
    + apply Hnotin. rewrite Hx, <- Hay. by apply list_elem_of_fmap_2.
Qed.

Lemma C6_witness :
  ~ registered Example.modB (modules Example.loadedA)
  /\ unload_module (Example.E None) Example.modB Example.loadedA
     = (-1, Example.loadedA)
  /\ registered Example.modA (modules Example.loaded)
  /\ NoDup (addr <$> modules Example.loaded)
  /\ exists st' tr,
       unload_module (Example.E None) Example.modA Example.loaded = (0, st')
       /\ trace st'
          = trace Example.loaded
            ++ (EvFreeHandler
                <$> filter (owned_by Example.modA) (callbacks Example.loaded))
            ++ tr ++ [EvFreeModule Example.modA]
       /\ finalization_events (Example.E None) Example.modA tr
       /\ freed_handlers_of tr = []
       /\ handled_of tr = [] /\ invoked_of tr = []
       /\ callbacks st'
          = filter (fun h => ~ owned_by Example.modA h)
              (callbacks Example.loaded)
       /\ Forall (fun h => ~ owned_by Example.modA h) (callbacks st')
       /\ ~ registered Example.modA (modules st').
Proof.
  assert (H1 : ~ registered Example.modB (modules Example.loadedA)).
  { assert (modules Example.loadedA = [Example.modA]) as ->
      by (vm_compute; reflexivity).
    unfold registered. rewrite Exists_cons, Exists_nil. simpl.
    intros [H|[]]. discriminate H. }
  assert (H2 : registered Example.modA (modules Example.loaded)).
  { assert (modules Example.loaded = [Example.modA; Example.modB]) as ->
      by (vm_compute; reflexivity).
    left. reflexivity. }
  assert (H3 : NoDup (addr <$> modules Example.loaded)).
  { assert (modules Example.loaded = [Example.modA; Example.modB]) as ->
      by (vm_compute; reflexivity).
    simpl. apply NoDup_cons. split.
    - rewrite list_elem_of_singleton. discriminate.
    - apply NoDup_singleton. }
  split; [exact H1|].
  split; [exact (proj1 (C6_unload (Example.E None) Example.modB
                          Example.loadedA) H1)|].
  split; [exact H2|]. split; [exact H3|].
  destruct (proj2 (C6_unload (Example.E None) Example.modA Example.loaded) H2)
    as (st' & tr & Hrun & Ht & Hfin & Hf & Hh & Hi & Hc & Hall & Hnd).
  exists st', tr. repeat split; try assumption. exact (Hnd H3).
Defined.

(** C7. [queue_message] does nothing when the message pointer is NULL or
    when the size the message declares for itself as a whole (its
    [line_size_], the total size of the specification) is smaller than
    the size of the envelope header: the state, and with it the message
    queue, is unchanged, so that no drain ever passes such a message to
    a handler. *)
Theorem C7_queue_message_rejects {world : Type} (E : env world)
    (sender : endpoint_t) (recipient : option module_t)
    (msg : option dsmemsg_generic_t) (extra_size : Z) (extra : list byte)
    (st : state world) :
  msg = None
  \/ (exists genmsg, msg = Some genmsg
                     /\ line_size_ genmsg < sizeof_dsmemsg_generic_t) ->
  queue_message E sender recipient msg extra_size extra st = st
  /\ forall fuel,
       process_message_queue E fuel
         (queue_message E sender recipient msg extra_size extra st)
       = process_message_queue E fuel st.
Proof.
  intros Hbad.
  assert (queue_message E sender recipient msg extra_size extra st = st)
    as Heq.
  { unfold queue_message. destruct Hbad as [->|(genmsg & -> & Hlt)]; [done|].
    apply Z.ltb_lt in Hlt. by rewrite Hlt. }
  split; [exact Heq|]. intros fuel. by rewrite Heq.
Qed.

Lemma C7_witness :
  let short := {| line_size_ := 11; size_ := 11; type_ := 16; payload := [] |}
  in
  (Some short = None
   \/ (exists genmsg, Some short = Some genmsg
                      /\ line_size_ genmsg < sizeof_dsmemsg_generic_t))
  /\ queue_message (Example.E None) Example.nobody None (Some short) 0 []
       Example.loaded = Example.loaded
  /\ queue_message (Example.E None) Example.nobody None None 0 []
       Example.loaded = Example.loaded.
Proof.
  intros short.
  assert (H : Some short = None
              \/ (exists genmsg, Some short = Some genmsg
                    /\ line_size_ genmsg < sizeof_dsmemsg_generic_t)).
  { right. exists short. split; [reflexivity|]. vm_compute. reflexivity. }
  split; [exact H|]. split.
  - exact (proj1 (C7_queue_message_rejects (Example.E None) Example.nobody
                    None (Some short) 0 [] Example.loaded H)).
  - exact (proj1 (C7_queue_message_rejects (Example.E None) Example.nobody
                    None None 0 [] Example.loaded (or_introl eq_refl))).
Defined.

(** The size [queue_message] tests is the total size: a message whose
    declared size [size_] is smaller than the header, with a total size
    that is not, is queued. *)
Example queue_message_tests_total_size :
  size_ Example.msg10 < sizeof_dsmemsg_generic_t
  /\ data <$> message_queue
                (queue_message (Example.E None) Example.nobody None
                   (Some Example.msg10) 0 [] Example.loaded)
     = [Example.msg10].
Proof. by vm_compute. Qed.






(** C9, as stated, fails: an endpoint that denotes neither a module nor
    a connection, such as the sender of a message broadcast outside any
    handler, is not the same as itself. *)
Lemma C9_empty_endpoint_not_same :
  from <$> message_queue Example.cascade_start = [Example.nobody]
  /\ endpoint_same (Some Example.nobody) (Some Example.nobody) = false
  /\ ~ (forall e : endpoint_t, endpoint_same (Some e) (Some e) = true).
Proof.
  split; [by vm_compute|]. split; [reflexivity|].
  intros H. specialize (H Example.nobody). discriminate H.
Qed.

(** C9, amended. An endpoint that denotes a module or a connection is
    the same as itself; a module endpoint and a connection endpoint are
    never the same, whatever the addresses. *)
Theorem C9_endpoint_same (e a b : endpoint_t) :
  (is_Some (module e) \/ is_Some (conn e) ->
   endpoint_same (Some e) (Some e) = true)
  /\ (is_module_endpoint a -> is_connection_endpoint b ->
      endpoint_same (Some a) (Some b) = false).
Proof.
  split.
  - destruct e as [[m|] [c|]]; simpl; unfold module_eqb;
      rewrite ?N.eqb_refl; intros [[? H]|[? H]]; try done; discriminate H.
  - intros [[m Hm] Hc] [Hm' [c Hc']].
    destruct a as [am ac], b as [bm bc]. simpl in *. by subst.
Qed.

Lemma C9_witness :
  let a := {| module := Some Example.modA; conn := None |} in
  let b := {| module := None; conn := Some 4097%N |} in
  (is_Some (module a) \/ is_Some (conn a))
  /\ is_module_endpoint a /\ is_connection_endpoint b
  /\ endpoint_same (Some a) (Some a) = true
  /\ endpoint_same (Some b) (Some b) = true
  /\ endpoint_same (Some a) (Some b) = false.
Proof.
  intros a b.
  assert (Ha : is_Some (module a) \/ is_Some (conn a))
    by (left; eexists; reflexivity).
  assert (Hb : is_Some (module b) \/ is_Some (conn b))
    by (right; eexists; reflexivity).
  assert (Hma : is_module_endpoint a)
    by (split; [eexists; reflexivity|reflexivity]).
  assert (Hcb : is_connection_endpoint b)
    by (split; [reflexivity|eexists; reflexivity]).
  split; [exact Ha|]. split; [exact Hma|]. split; [exact Hcb|].
  split; [exact (proj1 (C9_endpoint_same a a b) Ha)|].
  split; [exact (proj1 (C9_endpoint_same b a b) Hb)|].
  exact (proj2 (C9_endpoint_same a a b) Hma Hcb).
Defined.

(** C10. [broadcast] is [broadcast_with_extra] with no extra bytes: the
    message is queued as a broadcast from the currently handling module
    and, whatever the message, handed to the socket layer as a broadcast
    with zero extra bytes. *)
Theorem C10_broadcast_is_broadcast_with_extra {world : Type} (E : env world)
    (msg : option dsmemsg_generic_t) (st : state world) :
  broadcast E msg st = broadcast_with_extra E msg 0 [] st
  /\ exists tr,
       trace (broadcast E msg st)
       = trace st ++ tr ++ [EvSockBroadcast msg 0 []]
       /\ message_queue (broadcast E msg st)
          = message_queue st ++ queued_of tr
       /\ broadcast E msg st
          = dsmesock_broadcast_with_extra msg 0 []
              (queue_message E
                 {| module := currently_handling_module st; conn := None |}
                 None msg 0 [] st).
Proof.
  split; [reflexivity|].
  destruct (queue_message_step E
              {| module := currently_handling_module st; conn := None |}
              None msg 0 [] st) as (tr & (Ht & _ & Hq & _) & _).
  exists tr. unfold broadcast, broadcast_with_extra,
    dsmesock_broadcast_with_extra. simpl.
  rewrite Ht, Hq, <- app_assoc. by repeat split.
Qed.

(** * Further properties of the code *)

(** ** The handler registry *)

Lemma StronglySorted_filter {A : Type} (R : A -> A -> Prop) (P : A -> Prop)
    `{!forall x, Decision (P x)} (xs : list A) :
  StronglySorted R xs -> StronglySorted R (filter P xs).
Proof.
  induction 1 as [|a xs Hl IH Hx]; [constructor|].
  destruct (decide (P a)).
  - rewrite filter_cons_True by done. constructor; [done|].
    apply Forall_forall. intros y Hy. apply list_elem_of_filter in Hy as [_ Hy].
    rewrite Forall_forall in Hx. by apply Hx.
  - by rewrite filter_cons_False.
Qed.

Section RegistryMore.
Context {world : Type} (E : env world).
Implicit Types (st : state world) (h d x : msg_handler_info_t).
Implicit Types (l : list msg_handler_info_t) (m : module_t).

Lemma add_msghandlers_loop_ascending table m st :
  StronglySorted registry_ascending (callbacks st) ->
  StronglySorted registry_ascending
    (callbacks (snd (add_msghandlers_loop E table m st))).
Proof.
  revert st. induction table as [|e table IH]; intros st Hs; simpl; [done|].
  destruct (fn_callback e =? 0)%N; [done|].
  pose proof (add_single_handler_ascending E (fn_msg_type e) (fn_msg_size e)
                (fn_callback e) m st Hs) as Hs'.
  destruct (add_single_handler E (fn_msg_type e) (fn_msg_size e)
              (fn_callback e) m st) as [r st1].
  simpl in Hs'. destruct (r =? 0); [by apply IH|done].
Qed.

Lemma sort_comparator_pos_key d x :
  sort_comparator d x > 0 -> key_below (msg_type d) (priority (owner d)) x.
Proof.
  unfold sort_comparator, key_below.
  destruct (Z.gtb_spec (msg_type d) (msg_type x)); [lia|].
  destruct (Z.ltb_spec (msg_type d) (msg_type x)); [lia|].
  destruct (Z.gtb_spec (priority (owner d)) (priority (owner x))); lia.
Qed.

Lemma registry_ascending_key x d :
  registry_ascending d x ->
  key_not_below (msg_type d) (priority (owner d)) x.
Proof. unfold registry_ascending, key_not_below. lia. Qed.

End RegistryMore.

(** X1. Whatever handlers are registered with [add_single_handler], and
    whether or not the allocations succeed, a registry that is ordered
    by message type ascending and, within a type, by owner priority
    ascending stays so; the handlers of one message type then stand
    next to each other. *)
Theorem registry_stays_ascending {world : Type} (E : env world)
    (rs : list registration) (st : state world) :
  StronglySorted registry_ascending (callbacks st) ->
  StronglySorted registry_ascending (callbacks (register_all E rs st))
  /\ forall pre a mid b post,
       callbacks (register_all E rs st) = pre ++ a :: mid ++ b :: post ->
       msg_type a = msg_type b ->
       Forall (fun h => msg_type h = msg_type a) mid.
Proof.
  intros Hs. pose proof (register_all_ascending E rs st Hs) as Hs'.
  split; [exact Hs'|].
  intros pre a mid b post Heq Hab. rewrite Heq in Hs'.
  apply StronglySorted_app_1_r in Hs'.
  apply StronglySorted_cons in Hs' as [Ha Hs'].
  apply StronglySorted_app in Hs' as (Hmb & _ & _).
  apply Forall_forall. intros h Hh.
  rewrite Forall_forall in Ha.
  assert (registry_ascending a h) as Hah by (apply Ha, elem_of_app; by left).
  assert (registry_ascending h b) as Hhb by (apply Hmb; [done|by left]).
  unfold registry_ascending in *. lia.
Qed.

Lemma registry_stays_ascending_witness :
  StronglySorted registry_ascending (callbacks Example.st0)
  /\ StronglySorted registry_ascending
       (callbacks
          (register_all (Example.E None) Example.registrations Example.st0)).
Proof.
  assert (H : StronglySorted registry_ascending (callbacks Example.st0))
    by constructor.
  split; [exact H|].
  exact (proj1 (registry_stays_ascending (Example.E None)
                  Example.registrations Example.st0 H)).
Defined.

(** X2. Where [add_single_handler] puts a handler: when the allocation
    succeeds it returns 0 and links the new handler into an ascending
    registry after every handler of a smaller type, or of its type and a
    smaller owner priority, and before all the others; among handlers of
    one type and one priority the one registered last comes first. *)
Theorem add_single_handler_position {world : Type} (E : env world)
    (type size : Z) (cb : N) (o : module_t) (st : state world) (p : N) :
  malloc E (mallocs st) = Some p ->
  StronglySorted registry_ascending (callbacks st) ->
  exists pre rest,
    callbacks st = pre ++ rest
    /\ fst (add_single_handler E type size cb o st) = 0
    /\ callbacks (snd (add_single_handler E type size cb o st))
       = pre ++ {| msg_type := type; msg_size := size;
                   owner := o; callback := cb |} :: rest
    /\ Forall (key_below type (priority o)) pre
    /\ Forall (key_not_below type (priority o)) rest.
Proof.
  intros Hp Hs.
  set (d := {| msg_type := type; msg_size := size; owner := o;
               callback := cb |}).
  destruct (g_slist_insert_sorted_split (callbacks st) d sort_comparator)
    as (pre & rest & Hl & Hins & Hpre & Hrest).
  exists pre, rest. split; [exact Hl|].
  unfold add_single_handler, do_malloc. rewrite Hp. simpl.
  split; [done|]. split; [exact Hins|]. split.
  - eapply Forall_impl; [exact Hpre|]. intros x Hx.
    by apply (sort_comparator_pos_key d x).
  - destruct rest as [|y rest]; [constructor|].
    apply sort_comparator_nonpos in Hrest.
    rewrite Hl in Hs. apply StronglySorted_app_1_r in Hs.
    apply StronglySorted_cons in Hs as [Hy _].
    constructor; [by apply (registry_ascending_key y d)|].
    eapply Forall_impl; [exact Hy|]. intros z Hz.
    apply (registry_ascending_key z d).
    unfold registry_ascending in *. lia.
Qed.

Lemma add_single_handler_position_witness :
  malloc (Example.E None) (mallocs Example.loaded) = Some 4105%N
  /\ StronglySorted registry_ascending (callbacks Example.loaded)
  /\ exists pre rest,
       callbacks Example.loaded = pre ++ rest
       /\ fst (add_single_handler (Example.E None) 16 8 7 Example.modA
                 Example.loaded) = 0
       /\ callbacks
            (snd (add_single_handler (Example.E None) 16 8 7 Example.modA
                    Example.loaded))
          = pre ++ {| msg_type := 16; msg_size := 8;
                      owner := Example.modA; callback := 7 |} :: rest
       /\ Forall (key_below 16 (priority Example.modA)) pre
       /\ Forall (key_not_below 16 (priority Example.modA)) rest.
Proof.
  assert (H1 : malloc (Example.E None) (mallocs Example.loaded)
               = Some 4105%N) by (vm_compute; reflexivity).
  assert (H2 : StronglySorted registry_ascending (callbacks Example.loaded)).
  { assert (callbacks Example.loaded
            = [Example.hA; Example.hB; Example.hB']) as ->
      by (vm_compute; reflexivity).
    repeat constructor; unfold registry_ascending; simpl; lia. }
  split; [exact H1|]. split; [exact H2|].
  exact (add_single_handler_position (Example.E None) 16 8 7 Example.modA
           Example.loaded 4105 H1 H2).
Defined.

(** In the concrete daemon a second handler of [liba.so] for type 0x10,
    of the same priority as the first, is placed before it. *)
Example newest_handler_of_equal_priority_first :
  callbacks
    (snd (add_single_handler (Example.E None) 16 8 7 Example.modA
            Example.loaded))
  = [ {| msg_type := 16; msg_size := 8; owner := Example.modA;
         callback := 7 |};
      Example.hA; Example.hB; Example.hB' ].
Proof. by vm_compute. Qed.

(** X3. [add_single_handler] returns 0 when its allocation succeeds and
    -1 otherwise; on -1 the registry is unchanged, on 0 it holds the old
    handlers and the new one, and nothing else of the state changes but
    the count of allocations. *)
Theorem add_single_handler_result {world : Type} (E : env world)
    (type size : Z) (cb : N) (o : module_t) (st : state world) :
  let r := add_single_handler E type size cb o st in
  (fst r = 0 <-> is_Some (malloc E (mallocs st)))
  /\ (fst r = -1 <-> malloc E (mallocs st) = None)
  /\ (fst r = -1 -> callbacks (snd r) = callbacks st)
  /\ (fst r = 0 ->
      callbacks (snd r)
      ≡ₚ {| msg_type := type; msg_size := size; owner := o; callback := cb |}
         :: callbacks st)
  /\ modules (snd r) = modules st
  /\ message_queue (snd r) = message_queue st
  /\ trace (snd r) = trace st
  /\ mallocs (snd r) = S (mallocs st).
Proof.
  unfold add_single_handler, do_malloc.
  destruct (malloc E (mallocs st)) as [p|]; simpl.
  - repeat split; try done; try (intros; by eexists).
    intros _. apply g_slist_insert_sorted_perm.
  - repeat split; try done; by intros [? ?].
Qed.

Lemma state_eq {world : Type} (s1 s2 : state world) :
  modules s1 = modules s2 -> callbacks s1 = callbacks s2 ->
  message_queue s1 = message_queue s2 ->
  currently_handling_module s1 = currently_handling_module s2 ->
  plugins s1 = plugins s2 -> mallocs s1 = mallocs s2 ->
  trace s1 = trace s2 -> s1 = s2.
Proof. destruct s1, s2. simpl. by intros -> -> -> -> -> -> ->. Qed.

(** X4. [remove_msghandlers] removes exactly the handlers owned by the
    module and keeps the others in their order; it releases the handlers
    it removes, touches nothing else, keeps an ascending registry
    ascending, and removing a second time changes nothing. *)
Theorem remove_msghandlers_exact {world : Type}
    (m : module_t) (st : state world) :
  callbacks (remove_msghandlers m st)
  = filter (fun h => ~ owned_by m h) (callbacks st)
  /\ trace (remove_msghandlers m st)
     = trace st ++ (EvFreeHandler <$> filter (owned_by m) (callbacks st))
  /\ modules (remove_msghandlers m st) = modules st
  /\ message_queue (remove_msghandlers m st) = message_queue st
  /\ remove_msghandlers m (remove_msghandlers m st) = remove_msghandlers m st
  /\ (StronglySorted registry_ascending (callbacks st) ->
      StronglySorted registry_ascending
        (callbacks (remove_msghandlers m st))).
Proof.
  destruct (remove_msghandlers_spec m st)
    as (Hc & Ht & Hm & Hq & Hh & Hp & Ha).
  destruct (remove_msghandlers_spec m (remove_msghandlers m st))
    as (Hc2 & Ht2 & Hm2 & Hq2 & Hh2 & Hp2 & Ha2).
  assert (forall l : list msg_handler_info_t,
             filter (owned_by m) (filter (fun h => ~ owned_by m h) l) = []
             /\ filter (fun h => ~ owned_by m h)
                  (filter (fun h => ~ owned_by m h) l)
                = filter (fun h => ~ owned_by m h) l) as Hff.
  { induction l as [|h l [IH1 IH2]]; [done|].
    destruct (decide (owned_by m h)) as [Ho|Ho].
    - by rewrite (filter_cons_False (fun h => ~ owned_by m h)) by tauto.
    - rewrite (filter_cons_True (fun h => ~ owned_by m h)) by done.
      rewrite (filter_cons_False (owned_by m)) by done.
      rewrite (filter_cons_True (fun h => ~ owned_by m h)) by done.
      by rewrite IH2. }
  split; [done|]. split; [done|]. split; [done|]. split; [done|]. split.
  - apply state_eq; try congruence.
    + rewrite Hc2, Hc. apply Hff.
    + rewrite Ht2, Hc, (proj1 (Hff _)). simpl. by rewrite app_nil_r.
  - intros Hs. rewrite Hc. by apply StronglySorted_filter.
Qed.

(** X5. [add_msghandlers] fails at once, changing nothing, on a NULL
    module. It reads the handler table up to the first entry whose
    callback is NULL and ignores what follows; when it returns 0 the
    registry holds the old handlers and one handler, owned by the
    module, for every entry read. *)
Theorem add_msghandlers_reads_to_terminator {world : Type} (E : env world)
    (pre post : list module_fn_info_t) (term : module_fn_info_t)
    (m : module_t) (st : state world) :
  Forall (fun e => fn_callback e <> 0%N) pre ->
  fn_callback term = 0%N ->
  add_msghandlers E None st = (-1, st)
  /\ add_msghandlers_loop E (pre ++ term :: post) m st
     = add_msghandlers_loop E pre m st
  /\ (fst (add_msghandlers_loop E pre m st) = 0 ->
      callbacks (snd (add_msghandlers_loop E pre m st))
      ≡ₚ (handler_of_entry m <$> pre) ++ callbacks st).
Proof.
  intros Hpre Hterm. split; [reflexivity|].
  revert st. induction Hpre as [|e pre He _ IH]; intros st; simpl.
  - rewrite Hterm. simpl. by split.
  - apply N.eqb_neq in He. rewrite He.
    assert (fst (add_single_handler E (fn_msg_type e) (fn_msg_size e)
                   (fn_callback e) m st) = 0 ->
            callbacks (snd (add_single_handler E (fn_msg_type e)
                              (fn_msg_size e) (fn_callback e) m st))
            ≡ₚ handler_of_entry m e :: callbacks st) as Hperm.
    { unfold add_single_handler, do_malloc.
      destruct (malloc E (mallocs st)); simpl; [|done].
      intros _. apply g_slist_insert_sorted_perm. }
    destruct (add_single_handler E (fn_msg_type e) (fn_msg_size e)
                (fn_callback e) m st) as [r st1].
    simpl in Hperm. destruct (Z.eqb_spec r 0) as [->|Hr].
    + destruct (IH st1) as [IH1 IH2]. split; [exact IH1|].
      intros H0. rewrite (IH2 H0), (Hperm eq_refl).
      by rewrite Permutation_middle.
    + split; [done|]. simpl. intros [=].
Qed.

Lemma add_msghandlers_reads_to_terminator_witness :
  let pre := [ {| fn_msg_type := 16; fn_msg_size := 8; fn_callback := 2 |};
               {| fn_msg_type := 32; fn_msg_size := 4; fn_callback := 3 |} ] in
  let term := {| fn_msg_type := 0; fn_msg_size := 0; fn_callback := 0 |} in
  let post := [ {| fn_msg_type := 48; fn_msg_size := 4; fn_callback := 4 |} ] in
  Forall (fun e => fn_callback e <> 0%N) pre
  /\ fn_callback term = 0%N
  /\ add_msghandlers_loop (Example.E None) (pre ++ term :: post)
       Example.modB Example.loadedA
     = add_msghandlers_loop (Example.E None) pre Example.modB Example.loadedA
  /\ fst (add_msghandlers_loop (Example.E None) pre Example.modB
            Example.loadedA) = 0
  /\ callbacks (snd (add_msghandlers_loop (Example.E None) pre Example.modB
                       Example.loadedA))
     ≡ₚ (handler_of_entry Example.modB <$> pre) ++ callbacks Example.loadedA.
Proof.
  intros pre term post.
  assert (H1 : Forall (fun e => fn_callback e <> 0%N) pre)
    by (repeat constructor; discriminate).
  assert (H2 : fn_callback term = 0%N) by reflexivity.
  assert (H3 : fst (add_msghandlers_loop (Example.E None) pre Example.modB
                      Example.loadedA) = 0) by (vm_compute; reflexivity).
  destruct (add_msghandlers_reads_to_terminator (Example.E None) pre post term
              Example.modB Example.loadedA H1 H2) as (_ & Heq & Hperm).
  split; [exact H1|]. split; [exact H2|]. split; [exact Heq|].
  split; [exact H3|]. exact (Hperm H3).
Defined.

(** X6. The lookup of [handle_message], [g_slist_find_custom] with
    [msg_comparator], stops at the first handler of the given message
    type and at no other: the 32-bit difference it computes, also where
    it is negative as an [int], is zero for equal types only. *)
Theorem find_handler_by_type (l : list msg_handler_info_t) (type : Z) :
  Forall (fun h => u32 (msg_type h)) l -> u32 type ->
  exists pre,
    l = pre ++ g_slist_find_custom l type msg_comparator
    /\ Forall (fun h => msg_type h <> type) pre
    /\ match g_slist_find_custom l type msg_comparator with
       | [] => True
       | h :: _ => msg_type h = type
       end.
Proof.
  intros Hl Ht. induction Hl as [|h l Hh _ IH]; simpl.
  - by exists [].
  - destruct (Z.eqb_spec (msg_comparator h type) 0) as [Hc|Hc].
    + exists []. repeat split; [done|]. by apply msg_comparator_zero.
    + destruct IH as (pre & Heq & Hpre & Hhead).
      exists (h :: pre). split; [simpl; by rewrite <- Heq|].
      split; [|done]. constructor; [|done].
      intros Heq'. apply Hc. by apply msg_comparator_zero.
Qed.

Lemma find_handler_by_type_witness :
  let far := {| msg_type := 2 ^ 32 - 1; msg_size := 12;
                owner := Example.modA; callback := 1 |} in
  Forall (fun h => u32 (msg_type h)) [far; Example.hB'] /\ u32 32
  /\ g_slist_find_custom [far; Example.hB'] 32 msg_comparator = [Example.hB']
  /\ exists pre,
       [far; Example.hB']
       = pre ++ g_slist_find_custom [far; Example.hB'] 32 msg_comparator
       /\ Forall (fun h => msg_type h <> 32) pre
       /\ match g_slist_find_custom [far; Example.hB'] 32 msg_comparator with
          | [] => True
          | h :: _ => msg_type h = 32
          end.
Proof.
  intros far.
  assert (H1 : Forall (fun h => u32 (msg_type h)) [far; Example.hB'])
    by (repeat constructor; unfold u32; simpl; lia).
  assert (H2 : u32 32) by (unfold u32; lia).
  split; [exact H1|]. split; [exact H2|]. split; [vm_compute; reflexivity|].
  exact (find_handler_by_type [far; Example.hB'] 32 H1 H2).
Defined.

(** ** Queueing *)

Section QueueMore.
Context {world : Type} (E : env world).
Implicit Types (st : state world) (tr : list event).

Lemma queue_message_cases sender recipient msg extra_size extra st :
  (message_queue (queue_message E sender recipient msg extra_size extra st)
   = message_queue st
   /\ trace (queue_message E sender recipient msg extra_size extra st)
      = trace st)
  \/ (exists genmsg q,
        msg = Some genmsg
        /\ q = {| from := sender; to := recipient;
                  data := copy_message genmsg extra_size extra |}
        /\ message_queue
             (queue_message E sender recipient msg extra_size extra st)
           = message_queue st ++ [q]
        /\ trace (queue_message E sender recipient msg extra_size extra st)
           = trace st ++ [EvQueued q]).
Proof.
  unfold queue_message. destruct msg as [genmsg|]; [|by left].
  destruct (line_size_ genmsg <? sizeof_dsmemsg_generic_t); [by left|].
  unfold do_malloc. simpl.
  destruct (malloc E (mallocs st)); [|by left]. simpl.
  destruct (malloc E (S (mallocs st))); [|by left].
  right. by eexists _, _.
Qed.

Lemma queue_message_senders sender recipient msg extra_size extra st tr :
  trace (queue_message E sender recipient msg extra_size extra st)
  = trace st ++ tr ->
  Forall (fun q => from q = sender /\ to q = recipient) (queued_of tr).
Proof.
  intros Ht.
  destruct (queue_message_cases sender recipient msg extra_size extra st)
    as [[_ Ht']|(genmsg & q & _ & -> & _ & Ht')]; rewrite Ht' in Ht.
  - rewrite <- (app_nil_r (trace st)) in Ht at 1.
    apply app_inv_head in Ht as <-. constructor.
  - apply app_inv_head in Ht as <-. by repeat constructor.
Qed.

Lemma run_action_senders a st tr :
  trace (run_action E a st) = trace st ++ tr ->
  Forall (fun q => forall x, module (from q) = Some x ->
                             currently_handling_module st = Some x)
    (queued_of tr).
Proof.
  assert (Hqm : forall sender recipient msg sz ex tr',
             (forall x, module sender = Some x ->
                        currently_handling_module st = Some x) ->
             trace (queue_message E sender recipient msg sz ex st)
             = trace st ++ tr' ->
             Forall (fun q => forall x, module (from q) = Some x ->
                               currently_handling_module st = Some x)
               (queued_of tr')).
  { intros sender recipient msg sz ex tr' Hs Ht.
    eapply Forall_impl; [by eapply queue_message_senders|].
    intros q [-> _]. exact Hs. }
  assert (Hqe : forall sender recipient msg sz ex e,
             (forall x, module sender = Some x ->
                        currently_handling_module st = Some x) ->
             queued_of [e] = [] ->
             trace (emit e (queue_message E sender recipient msg sz ex st))
             = trace st ++ tr ->
             Forall (fun q => forall x, module (from q) = Some x ->
                               currently_handling_module st = Some x)
               (queued_of tr)).
  { intros sender recipient msg sz ex e Hs He Ht.
    destruct (queue_message_step E sender recipient msg sz ex st)
      as (tr1 & (Ht1 & _) & _).
    simpl in Ht. rewrite Ht1, <- app_assoc in Ht.
    apply app_inv_head in Ht as <-.
    rewrite queued_of_app, He, app_nil_r. by eapply Hqm. }
  assert (Hem : forall e, queued_of [e] = [] ->
             trace (emit e st) = trace st ++ tr ->
             Forall (fun q => forall x, module (from q) = Some x ->
                               currently_handling_module st = Some x)
               (queued_of tr)).
  { intros e He Ht. simpl in Ht. apply app_inv_head in Ht as <-.
    rewrite He. constructor. }
  destruct a as [msg|msg c|msg sz ex|msg|[r|] msg sz ex|[r|] msg]; simpl;
    unfold broadcast_internally, broadcast_internally_from_socket,
      broadcast, broadcast_with_extra, endpoint_send,
      endpoint_send_with_extra, queue_for_module_with_extra,
      dsmesock_broadcast_with_extra, dsmesock_send_with_extra, dsme_log;
    repeat match goal with
      | |- context [match ?x with Some _ => _ | None => _ end] => destruct x
      end;
    intros Ht;
    first [ by eapply Hqm; [|exact Ht]
          | by eapply Hqe; [| |exact Ht]
          | by eapply Hem; [|exact Ht] ].
Qed.

Lemma run_actions_senders acts st tr :
  trace (run_actions E acts st) = trace st ++ tr ->
  Forall (fun q => forall x, module (from q) = Some x ->
                             currently_handling_module st = Some x)
    (queued_of tr).
Proof.
  revert st tr. induction acts as [|a acts IH]; intros st tr Ht; simpl in Ht.
  - rewrite <- (app_nil_r (trace st)) in Ht at 1.
    apply app_inv_head in Ht as <-. constructor.
  - destruct (run_action_step E a st) as (tr1 & (Ht1 & _ & _ & _ & _ & Hh1) & _).
    fold (run_actions E acts (run_action E a st)) in Ht.
    destruct (run_actions_step E acts (run_action E a st))
      as (tr2 & (Ht2 & _) & _).
    rewrite Ht2, Ht1, <- app_assoc in Ht. apply app_inv_head in Ht as <-.
    rewrite queued_of_app. apply Forall_app. split.
    + by apply (run_action_senders a st).
    + rewrite <- Hh1. by apply IH.
Qed.

Lemma run_plugin_senders code st tr :
  trace (run_plugin E code st) = trace st ++ tr ->
  Forall (fun q => forall x, module (from q) = Some x ->
                             currently_handling_module st = Some x)
    (queued_of tr).
Proof.
  unfold run_plugin. destruct (code (plugins st)) as [w acts].
  apply (run_actions_senders acts (set_plugins w st)).
Qed.

End QueueMore.

(** X7. When one of the two allocations of [queue_message] fails the
    message is dropped without a trace: the queue, the registries, the
    log and the state of the plugins are as before. *)
Theorem queue_message_allocation_failure {world : Type} (E : env world)
    (sender : endpoint_t) (recipient : option module_t)
    (msg : option dsmemsg_generic_t) (extra_size : Z) (extra : list byte)
    (st : state world) :
  malloc E (mallocs st) = None \/ malloc E (S (mallocs st)) = None ->
  let st' := queue_message E sender recipient msg extra_size extra st in
  message_queue st' = message_queue st
  /\ trace st' = trace st
  /\ modules st' = modules st
  /\ callbacks st' = callbacks st
  /\ currently_handling_module st' = currently_handling_module st
  /\ plugins st' = plugins st.
Proof.
  intros Hfail. unfold queue_message.
  destruct msg as [genmsg|]; [|done].
  destruct (line_size_ genmsg <? sizeof_dsmemsg_generic_t); [done|].
  unfold do_malloc. simpl.
  destruct (malloc E (mallocs st)) eqn:H1; simpl; [|done].
  destruct (malloc E (S (mallocs st))) eqn:H2; simpl; [|done].
  by destruct Hfail.
Qed.

Lemma queue_message_allocation_failure_witness :
  let E := Example.E (Some 10%nat) in
  (malloc E (mallocs Example.loaded) = None
   \/ malloc E (S (mallocs Example.loaded)) = None)
  /\ message_queue
       (queue_message E Example.nobody None (Some Example.msg10) 0 []
          Example.loaded) = message_queue Example.loaded
  /\ trace
       (queue_message E Example.nobody None (Some Example.msg10) 0 []
          Example.loaded) = trace Example.loaded.
Proof.
  intros E.
  assert (H : malloc E (mallocs Example.loaded) = None
              \/ malloc E (S (mallocs Example.loaded)) = None)
    by (right; vm_compute; reflexivity).
  split; [exact H|].
  destruct (queue_message_allocation_failure E Example.nobody None
              (Some Example.msg10) 0 [] Example.loaded H) as (H1 & H2 & _).
  split; [exact H1|exact H2].
Defined.

(** X8. What a handler queues while it runs is attributed to the owner
    of the handler: when [handle_message] calls a callback, no envelope
    queued during the call names another module as its sender, and the
    currently handling module is cleared when the callback returns. *)
Theorem callback_messages_attributed {world : Type} (E : env world)
    (h : msg_handler_info_t) (sender : endpoint_t)
    (recipient : option module_t) (msg : dsmemsg_generic_t)
    (st : state world) :
  node_delivers recipient msg h ->
  exists tr,
    trace (handle_message_node E h sender recipient msg st)
    = trace st ++ EvCallback h sender msg :: tr
    /\ attributed_to (owner h) (queued_of tr)
    /\ message_queue (handle_message_node E h sender recipient msg st)
       = message_queue st ++ queued_of tr
    /\ currently_handling_module
         (handle_message_node E h sender recipient msg st) = None.
Proof.
  intros (Hcb & Hto & Hls & Hs). unfold handle_message_node.
  assert ((callback h =? 0)%N = false) as -> by by apply N.eqb_neq.
  assert (negb (bool_decide (is_Some recipient))
          || module_ptr_eqb recipient (Some (owner h)) = true) as ->.
  { destruct recipient as [m|]; simpl; [|done].
    unfold module_eqb. by apply N.eqb_eq. }
  assert ((line_size_ msg >=? msg_size h) && (size_ msg =? msg_size h)
          = true) as ->.
  { apply andb_true_iff. split; [apply Z.geb_le; lia|by apply Z.eqb_eq]. }
  simpl.
  set (st1 := emit (EvCallback h sender msg)
                (set_currently_handling_module (Some (owner h)) st)).
  destruct (run_plugin_step E (handler_fn E (callback h) sender msg) st1)
    as (tr & Ht & _ & Hq & _).
  exists tr. split; [|split; [|split]].
  - rewrite Ht. simpl. by rewrite <- app_assoc.
  - pose proof (run_plugin_senders E _ st1 tr Ht) as Hsend.
    unfold attributed_to. eapply Forall_impl; [exact Hsend|].
    intros q Hq' x Hx. specialize (Hq' x Hx). simpl in Hq'. congruence.
  - exact Hq.
  - reflexivity.
Qed.

Lemma callback_messages_attributed_witness :
  node_delivers None Example.msg10 Example.hB
  /\ exists tr,
       trace (handle_message_node (Example.E None) Example.hB Example.nobody
                None Example.msg10 Example.loaded)
       = trace Example.loaded
         ++ EvCallback Example.hB Example.nobody Example.msg10 :: tr
       /\ attributed_to (owner Example.hB) (queued_of tr)
       /\ message_queue
            (handle_message_node (Example.E None) Example.hB Example.nobody
               None Example.msg10 Example.loaded)
          = message_queue Example.loaded ++ queued_of tr
       /\ currently_handling_module
            (handle_message_node (Example.E None) Example.hB Example.nobody
               None Example.msg10 Example.loaded) = None.
Proof.
  assert (H : node_delivers None Example.msg10 Example.hB).
  { unfold node_delivers. simpl. repeat split; [discriminate|lia]. }
  split; [exact H|].
  exact (callback_messages_attributed (Example.E None) Example.hB
           Example.nobody None Example.msg10 Example.loaded H).
Defined.

(** X9. [endpoint_send_with_extra] routes by the recipient. To an
    endpoint with a module the message is queued for that module, in the
    name of the currently handling module, and the sockets see nothing;
    otherwise the queue is left alone: to a connection the message goes
    straight to the socket layer, and for an empty or NULL recipient the
    call only logs. [endpoint_send] is the same with no extra bytes. *)
Theorem endpoint_send_routes {world : Type} (E : env world)
    (recipient : option endpoint_t) (msg : option dsmemsg_generic_t)
    (extra_size : Z) (extra : list byte) (st : state world) :
  let st' := endpoint_send_with_extra E recipient msg extra_size extra st in
  endpoint_send E recipient msg st
  = endpoint_send_with_extra E recipient msg 0 [] st
  /\ exists tr,
       trace st' = trace st ++ tr
       /\ match recipient ≫= module with
          | Some m =>
              message_queue st' = message_queue st ++ queued_of tr
              /\ Forall (fun e => exists q, e = EvQueued q) tr
              /\ Forall (fun q =>
                           to q = Some m
                           /\ from q
                              = {| module := currently_handling_module st;
                                   conn := None |}) (queued_of tr)
          | None =>
              message_queue st' = message_queue st
              /\ tr = [match recipient ≫= conn with
                       | Some c => EvSockSend c msg extra_size extra
                       | None => EvLog LOG_DEBUG
                       end]
          end.
Proof.
  split; [reflexivity|].
  unfold endpoint_send_with_extra.
  destruct recipient as [[[m|] [c|]]|]; simpl;
    try (eexists [_]; by repeat split).
  all: unfold queue_for_module_with_extra.
  all: match goal with
       | |- context [queue_message ?e ?s ?r ?ms ?z ?x ?st0] =>
           destruct (queue_message_cases e s r ms z x st0)
             as [[Hq Ht]|(genmsg & q & _ & Hqeq & Hq & Ht)]
       end.
  all: rewrite Hq, Ht.
  all: first [ exists []; rewrite !app_nil_r; by repeat split
             | exists [EvQueued q]; subst q; repeat split;
               repeat constructor; by eexists ].
Qed.

(** ** Dispatch *)

Section DispatchMore.
Context {world : Type} (E : env world).
Implicit Types (st : state world) (tr : list event).
Implicit Types (h : msg_handler_info_t) (node : list msg_handler_info_t).

Lemma handle_message_node_skip h sender recipient msg st :
  ~ node_delivers recipient msg h ->
  handle_message_node E h sender recipient msg st = st.
Proof.
  intros Hd. unfold handle_message_node.
  destruct (N.eqb_spec (callback h) 0); simpl; [done|].
  destruct (negb (bool_decide (is_Some recipient))
            || module_ptr_eqb recipient (Some (owner h))) eqn:Hto; [|done].
  destruct ((line_size_ msg >=? msg_size h) && (size_ msg =? msg_size h))
    eqn:Hsz; [|done].
  exfalso. apply Hd. apply andb_true_iff in Hsz as [Hls Hs].
  apply Z.geb_le in Hls. apply Z.eqb_eq in Hs.
  repeat split; [done| |lia|done].
  destruct recipient as [m|]; [|done]. simpl in Hto.
  unfold module_eqb in Hto. by apply N.eqb_eq in Hto.
Qed.

(** A message no handler takes only leaves its mark in the log. *)
Lemma handle_message_idle sender recipient msg st :
  Forall (fun h => msg_comparator h (dsmemsg_id msg) = 0 ->
                   ~ node_delivers recipient msg h) (callbacks st) ->
  handle_message E sender recipient msg st
  = emit (EvHandle {| from := sender; to := recipient; data := msg |}) st.
Proof.
  unfold handle_message. simpl.
  generalize (emit (EvHandle {| from := sender; to := recipient;
                                data := msg |}) st).
  induction 1 as [|h l Hh _ IH].
  - apply handle_message_loop_nil.
  - rewrite handle_message_loop_cons.
    destruct (Z.eqb_spec (msg_comparator h (dsmemsg_id msg)) 0) as [Hc|Hc];
      [|exact IH].
    rewrite handle_message_node_skip by auto. exact IH.
Qed.

End DispatchMore.

(** X10. A message that no registered handler takes (none has its type,
    or those that have are owned by another module than the recipient,
    or expect another size) is dropped by [handle_message]: apart from
    the log entry of the dispatch the state is unchanged. *)
Theorem handle_message_without_taker {world : Type} (E : env world)
    (sender : endpoint_t) (recipient : option module_t)
    (msg : dsmemsg_generic_t) (st : state world) :
  u32 (type_ msg) ->
  Forall (fun h => u32 (msg_type h)) (callbacks st) ->
  Forall (fun h => ~ spec_delivers recipient msg h) (callbacks st) ->
  handle_message E sender recipient msg st
  = emit (EvHandle {| from := sender; to := recipient; data := msg |}) st.
Proof.
  intros Hm Hu Hn. apply handle_message_idle.
  apply Forall_forall. intros h Hh Hc Hd.
  rewrite Forall_forall in Hu, Hn. apply (Hn h Hh).
  apply msg_comparator_zero in Hc; [|by apply Hu|done].
  unfold node_delivers in Hd. unfold spec_delivers, dsmemsg_id in *. tauto.
Qed.

Lemma handle_message_without_taker_witness :
  let odd := {| line_size_ := 20; size_ := 9; type_ := 16;
                payload := [x01; x02; x03; x04; x05; x06; x07; x08] |} in
  u32 (type_ odd)
  /\ Forall (fun h => u32 (msg_type h)) (callbacks Example.loaded)
  /\ Forall (fun h => ~ spec_delivers None odd h) (callbacks Example.loaded)
  /\ handle_message (Example.E None) Example.nobody None odd Example.loaded
     = emit (EvHandle {| from := Example.nobody; to := None; data := odd |})
         Example.loaded.
Proof.
  intros odd.
  assert (Hcb : callbacks Example.loaded
                = [Example.hA; Example.hB; Example.hB'])
    by (vm_compute; reflexivity).
  assert (H1 : u32 (type_ odd)) by (unfold u32; simpl; lia).
  assert (H2 : Forall (fun h => u32 (msg_type h)) (callbacks Example.loaded)).
  { rewrite Hcb. repeat constructor; unfold u32; simpl; lia. }
  assert (H3 : Forall (fun h => ~ spec_delivers None odd h)
                 (callbacks Example.loaded)).
  { rewrite Hcb. repeat constructor; unfold spec_delivers; simpl; lia. }
  split; [exact H1|]. split; [exact H2|]. split; [exact H3|].
  exact (handle_message_without_taker (Example.E None) Example.nobody None
           odd Example.loaded H1 H2 H3).
Defined.

(** X11. After [unload_module] has unloaded a module, a message
    addressed to that module is delivered to nobody: [handle_message]
    calls no callback for it and leaves the state, apart from the log
    entry of the dispatch, unchanged. *)
Theorem message_to_unloaded_module_dropped {world : Type} (E : env world)
    (m : module_t) (st st' : state world)
    (sender : endpoint_t) (msg : dsmemsg_generic_t) :
  unload_module E m st = (0, st') ->
  handle_message E sender (Some m) msg st'
  = emit (EvHandle {| from := sender; to := Some m; data := msg |}) st'.
Proof.
  intros Hun. apply handle_message_idle.
  destruct (decide (registered m (modules st))) as [Hreg|Hreg].
  - destruct (unload_module_registered E m st Hreg)
      as (st2 & pre & x & rest & tr & Hrun & _ & _ & _ & _ & Hc & _).
    rewrite Hrun in Hun. injection Hun as <-. rewrite Hc.
    apply Forall_forall. intros h Hh _ (_ & Hto & _).
    apply list_elem_of_filter in Hh as [Hno _]. apply Hno.
    unfold owned_by. by rewrite Hto.
  - rewrite unload_module_not_registered in Hun by done. discriminate Hun.
Qed.

Lemma message_to_unloaded_module_dropped_witness :
  let st' := snd (unload_module (Example.E None) Example.modA Example.loaded)
  in
  unload_module (Example.E None) Example.modA Example.loaded = (0, st')
  /\ handle_message (Example.E None) Example.nobody (Some Example.modA)
       Example.msg10 st'
     = emit (EvHandle {| from := Example.nobody; to := Some Example.modA;
                         data := Example.msg10 |}) st'.
Proof.
  intros st'.
  assert (H : unload_module (Example.E None) Example.modA Example.loaded
              = (0, st')) by (vm_compute; reflexivity).
  split; [exact H|].
  exact (message_to_unloaded_module_dropped (Example.E None) Example.modA
           Example.loaded st' Example.nobody Example.msg10 H).
Defined.

(** ** Loading and unloading *)

Section LoadMore.
Context {world : Type} (E : env world).
Implicit Types (st : state world) (tr : list event) (m : module_t).

Lemma load_module_dlopen_context filename st :
  currently_handling_module (snd (load_module_dlopen E filename st))
  = currently_handling_module st
  /\ plugins (snd (load_module_dlopen E filename st)) = plugins st.
Proof.
  unfold load_module_dlopen, do_malloc.
  destruct (negb _); simpl; [|done].
  destruct (malloc E (mallocs st)); simpl; [|done].
  by destruct (dlopen E ("./" +:+ filename)).
Qed.

Lemma load_module_init_context m h st :
  currently_handling_module (load_module_init E m h st)
  = currently_handling_module st
  \/ currently_handling_module (load_module_init E m h st) = None.
Proof.
  unfold load_module_init. destruct (dlsym_module_init E h); [by right|by left].
Qed.

Lemma add_msghandlers_loop_context table m st :
  currently_handling_module (snd (add_msghandlers_loop E table m st))
  = currently_handling_module st.
Proof.
  revert st. induction table as [|e table IH]; intros st; simpl; [done|].
  destruct (fn_callback e =? 0)%N; [done|].
  unfold add_single_handler, do_malloc.
  destruct (malloc E (mallocs st)); simpl; [|done].
  match goal with
  | |- context [add_msghandlers_loop E table m ?s] => rewrite (IH s)
  end.
  done.
Qed.

(** The outcomes of [load_module]. *)
Lemma load_module_cases filename prio st :
  let r := load_module E filename prio st in
  (currently_handling_module (snd r) = currently_handling_module st
   \/ currently_handling_module (snd r) = None)
  /\ ((fst r = None
       /\ modules (snd r) = modules st
       /\ (callbacks (snd r) = callbacks st
           \/ exists m, callbacks (snd r)
                        = filter (fun h => ~ owned_by m h) (callbacks st)))
      \/ (exists a h s4,
            let m := {| addr := a; name := filename;
                        priority := prio; handle := Some h |} in
            fst r = Some m
            /\ modules (snd r) = modules st ++ [m]
            /\ callbacks s4 = callbacks st
            /\ fst (add_msghandlers_loop E (message_handlers_of E m) m s4) = 0
            /\ callbacks (snd r)
               = callbacks
                   (snd (add_msghandlers_loop E (message_handlers_of E m)
                           m s4)))).
Proof.
  unfold load_module.
  destruct (load_module_dlopen_frame E filename st) as (Hm1 & Hc1 & _).
  destruct (load_module_dlopen_context filename st) as (Hh1 & _).
  destruct (load_module_dlopen E filename st) as [[h|] st1];
    simpl in Hm1, Hc1, Hh1.
  2:{ simpl. split; [by left|]. left. repeat split; [done|]. by left. }
  destruct (do_malloc E st1) as [[a|] st2] eqn:H2;
    unfold do_malloc in H2; injection H2 as _ <-.
  2:{ simpl. split; [by left|]. left. repeat split; [done|]. by left. }
  match goal with
  | |- context [do_malloc E ?s] =>
      destruct (do_malloc E s) as [[d|] st3] eqn:H3;
      unfold do_malloc in H3; injection H3 as _ <-
  end.
  - set (m := {| addr := a; name := filename; priority := prio;
                 handle := Some h |}).
    match goal with
    | |- context [add_msghandlers E (Some m) ?s] => set (s4 := s)
    end.
    assert (modules s4 = modules st /\ callbacks s4 = callbacks st
            /\ (currently_handling_module s4 = currently_handling_module st
                \/ currently_handling_module s4 = None)) as (Hm4 & Hc4 & Hh4).
    { subst s4.
      match goal with
      | |- context [load_module_init E m h ?s] =>
          destruct (load_module_init_frame E m h s) as (-> & ->);
          destruct (load_module_init_context m h s) as [->| ->]
      end; simpl; repeat split; auto. }
    pose proof (add_msghandlers_loop_frame E (message_handlers_of E m) m s4)
      as (Hm5 & Hc5 & _).
    pose proof (add_msghandlers_loop_context (message_handlers_of E m) m s4)
      as Hh5.
    change (add_msghandlers_loop E (message_handlers_of E m) m s4)
      with (add_msghandlers E (Some m) s4) in Hm5, Hc5, Hh5.
    pose proof (load_module_error_spec m h (snd (add_msghandlers E (Some m) s4)))
      as (_ & Hm6 & Hc6 & _).
    destruct (remove_msghandlers_spec m
                (dsme_log LOG_CRIT (snd (add_msghandlers E (Some m) s4))))
      as (_ & _ & _ & _ & Hh6 & _).
    destruct (add_msghandlers E (Some m) s4) as [r s5] eqn:Hadd.
    simpl in Hm5, Hc5, Hh5, Hm6, Hc6, Hh6.
    destruct (Z.eqb_spec r 0) as [->|Hr]; simpl.
    + split; [rewrite Hh5; exact Hh4|]. right. exists a, h, s4. simpl.
      fold m. change (add_msghandlers_loop E (message_handlers_of E m) m s4)
        with (add_msghandlers E (Some m) s4). rewrite Hadd. simpl.
      unfold g_slist_append. rewrite Hm5, Hm4. by repeat split.
    + split; [rewrite Hh6, Hh5; exact Hh4|]. left.
      rewrite Hm5, Hm4 in Hm6. rewrite Hc5, Hc4 in Hc6.
      repeat split; [exact Hm6|]. right. by exists m.
  - match goal with
    | |- context [load_module_error (Some ?m) (Some h) ?s] =>
        destruct (load_module_error_spec m h s) as (Hr & Hm6 & Hc6 & _);
        destruct (remove_msghandlers_spec m (dsme_log LOG_CRIT s))
          as (_ & _ & _ & _ & Hh6 & _);
        set (m0 := m) in *
    end.
    simpl in *. split; [left; by rewrite Hh6|]. left.
    repeat split; [by rewrite Hm6|]. right. exists m0. by rewrite Hc6, Hc1.
Qed.

Lemma handlers_owned_filter m st :
  Forall (fun h => registered (owner h) (modules st)) (callbacks st) ->
  Forall (fun h => registered (owner h) (modules st))
    (filter (fun h => ~ owned_by m h) (callbacks st)).
Proof.
  intros H. apply Forall_forall. intros h Hh.
  apply list_elem_of_filter in Hh as [_ Hh].
  rewrite Forall_forall in H. by apply H.
Qed.

End LoadMore.

(** X12. What [load_module] returns. A loaded module has the given file
    name and priority and an open code handle, and is appended at the
    end of the module registry; the handlers of the other modules are
    as before. When NULL is returned the module registry is unchanged
    and no handler has been added: the registry of handlers is what it
    was, less the handlers owned by the address of the failed module. *)
Theorem load_module_result {world : Type} (E : env world)
    (filename : string) (prio : Z) (st : state world) :
  let r := load_module E filename prio st in
  match fst r with
  | Some m =>
      name m = filename /\ priority m = prio /\ is_Some (handle m)
      /\ modules (snd r) = modules st ++ [m]
      /\ filter (fun h => ~ owned_by m h) (callbacks (snd r))
         = filter (fun h => ~ owned_by m h) (callbacks st)
  | None =>
      modules (snd r) = modules st
      /\ callbacks (snd r) `sublist_of` callbacks st
  end.
Proof.
  cbv zeta.
  destruct (load_module_cases E filename prio st)
    as (_ & [(-> & Hm & Hc)|(a & h & s4 & -> & Hm & Hc4 & _ & Hc)]).
  - split; [exact Hm|]. destruct Hc as [->|[m ->]]; [done|].
    apply sublist_filter.
  - simpl. repeat split; [by eexists|exact Hm|]. rewrite Hc.
    match goal with
    | |- context [add_msghandlers_loop E ?t ?m s4] =>
        destruct (add_msghandlers_loop_frame E t m s4) as (_ & -> & _)
    end.
    by rewrite Hc4.
Qed.

(** X13. When the code of a module cannot be opened, neither as
    [./filename] nor as [filename], [load_module] returns NULL and only
    logs: registries, queue and plugins are as before and nothing is
    released. *)
Theorem load_module_unresolved {world : Type} (E : env world)
    (filename : string) (prio : Z) (st : state world) :
  dlopen E filename = None ->
  dlopen E ("./" +:+ filename) = None ->
  let r := load_module E filename prio st in
  fst r = None
  /\ modules (snd r) = modules st
  /\ callbacks (snd r) = callbacks st
  /\ message_queue (snd r) = message_queue st
  /\ plugins (snd r) = plugins st
  /\ trace (snd r) = trace st ++ [EvLog LOG_CRIT].
Proof.
  intros H1 H2. unfold load_module, load_module_dlopen, do_malloc.
  destruct (negb _); simpl.
  - destruct (malloc E (mallocs st)); simpl; rewrite ?H2, H1; done.
  - rewrite H1. done.
Qed.

Lemma load_module_unresolved_witness :
  dlopen (Example.E None) "libc.so" = None
  /\ dlopen (Example.E None) ("./" +:+ "libc.so") = None
  /\ fst (load_module (Example.E None) "libc.so" 3 Example.loaded) = None
  /\ modules (snd (load_module (Example.E None) "libc.so" 3 Example.loaded))
     = modules Example.loaded
  /\ trace (snd (load_module (Example.E None) "libc.so" 3 Example.loaded))
     = trace Example.loaded ++ [EvLog LOG_CRIT].
Proof.
  assert (H1 : dlopen (Example.E None) "libc.so" = None) by reflexivity.
  assert (H2 : dlopen (Example.E None) ("./" +:+ "libc.so") = None)
    by reflexivity.
  split; [exact H1|]. split; [exact H2|].
  destruct (load_module_unresolved (Example.E None) "libc.so" 3
              Example.loaded H1 H2) as (R1 & R2 & _ & _ & _ & R3).
  split; [exact R1|]. split; [exact R2|exact R3].
Defined.

(** X14. [modulebase_init] loads the named modules in order, at priority
    0, and stops at the first that fails to load: the modules it has
    appended to the registry are those of a prefix of the names, which
    is the whole list exactly when it returns true; the modules loaded
    before a failure stay loaded. *)
Theorem modulebase_init_loads_prefix {world : Type} (E : env world)
    (module_names : list string) (st : state world) :
  let r := modulebase_init E module_names st in
  exists ms,
    modules (snd r) = modules st ++ ms
    /\ Forall (fun m => priority m = 0) ms
    /\ if fst r then name <$> ms = module_names
       else exists failed rest,
              module_names = (name <$> ms) ++ failed :: rest.
Proof.
  revert st. induction module_names as [|n names IH]; intros st; simpl.
  - exists []. by rewrite app_nil_r.
  - destruct (load_module_cases E n 0 st)
      as (_ & [(Hr & Hm & _)|(a & h & s4 & Hr & Hm & _)]);
      destruct (load_module E n 0 st) as [r st1]; simpl in *; subst r.
    + exists []. rewrite app_nil_r.
      split; [done|]. split; [done|]. by exists n, names.
    + set (m := {| addr := a; name := n; priority := 0;
                   handle := Some h |}) in *.
      destruct (IH st1) as (ms & Hms & Hprio & Hres).
      exists (m :: ms). rewrite Hms, Hm, <- app_assoc. split; [done|].
      split; [by constructor|].
      destruct (fst (modulebase_init E names st1)).
      * rewrite fmap_cons. by rewrite Hres.
      * destruct Hres as (failed & rest & ->).
        exists failed, rest. by rewrite fmap_cons.
Qed.

(** In the concrete daemon the start-up stops at the module that cannot
    be opened: the first module stays loaded, the third is not tried. *)
Example modulebase_init_stops_at_failure :
  let r := modulebase_init (Example.E None)
             ["liba.so"; "libc.so"; "libb.so"] Example.st0 in
  fst r = false /\ name <$> modules (snd r) = ["liba.so"].
Proof. by vm_compute. Qed.

(** X15. [load_module] and [unload_module] keep the handler registry
    within the module registry: if every registered handler is owned by
    a loaded module, this still holds after either of them, whether it
    succeeds or fails. *)
Theorem load_unload_keep_handlers_owned {world : Type} (E : env world)
    (st : state world) :
  handlers_owned st ->
  (forall filename prio,
     handlers_owned (snd (load_module E filename prio st)))
  /\ (forall m, handlers_owned (snd (unload_module E m st))).
Proof.
  unfold handlers_owned. intros Hown. split.
  - intros filename prio.
    destruct (load_module_cases E filename prio st)
      as (_ & [(_ & Hm & Hc)|(a & h & s4 & _ & Hm & Hc4 & _ & Hc)]).
    + rewrite Hm. destruct Hc as [->|[m ->]]; [done|].
      by apply handlers_owned_filter.
    + simpl in *. rewrite Hm, Hc.
      set (m := {| addr := a; name := filename; priority := prio;
                   handle := Some h |}) in *.
      destruct (add_msghandlers_loop_frame E (message_handlers_of E m) m s4)
        as (_ & Hf & _).
      apply Forall_forall. intros x Hx. unfold registered.
      rewrite Exists_app. destruct (decide (owned_by m x)) as [Ho|Ho].
      * right. by left.
      * left. assert (x ∈ filter (fun h => ~ owned_by m h) (callbacks st))
          as Hin by (rewrite <- Hc4, <- Hf; by apply list_elem_of_filter).
        apply list_elem_of_filter in Hin as [_ Hin].
        rewrite Forall_forall in Hown. by apply Hown.
  - intros m. destruct (decide (registered m (modules st))) as [Hreg|Hreg].
    + destruct (unload_module_registered E m st Hreg)
        as (st' & pre & x & rest & tr & -> & Hm & Hx & _ & Hm' & Hc & _).
      simpl. rewrite Hm', Hc. apply Forall_forall. intros y Hy.
      apply list_elem_of_filter in Hy as [Hno Hy].
      rewrite Forall_forall in Hown. specialize (Hown y Hy).
      unfold registered in *. rewrite Hm in Hown.
      rewrite Exists_app, Exists_cons in Hown. rewrite Exists_app.
      destruct Hown as [?|[Hbad|?]]; [by left| |by right].
      exfalso. apply Hno. unfold owned_by. congruence.
    + by rewrite unload_module_not_registered.
Qed.

Lemma load_unload_keep_handlers_owned_witness :
  handlers_owned Example.loaded
  /\ handlers_owned
       (snd (load_module (Example.E None) "liba.so" 1 Example.loaded))
  /\ handlers_owned
       (snd (unload_module (Example.E None) Example.modB Example.loaded)).
Proof.
  assert (H : handlers_owned Example.loaded).
  { unfold handlers_owned.
    assert (callbacks Example.loaded
            = [Example.hA; Example.hB; Example.hB']) as ->
      by (vm_compute; reflexivity).
    assert (modules Example.loaded = [Example.modA; Example.modB]) as ->
      by (vm_compute; reflexivity).
    unfold registered.
    repeat constructor; rewrite !Exists_cons; simpl; auto. }
  split; [exact H|].
  destruct (load_unload_keep_handlers_owned (Example.E None) Example.loaded H)
    as [Hl Hu].
  split; [exact (Hl "liba.so" 1)|exact (Hu Example.modB)].
Defined.

Section ShutdownMore.
Context {world : Type} (E : env world).
Implicit Types (st : state world) (tr : list event) (m : module_t).

Lemma unload_module_head_callbacks m rest st :
  modules st = m :: rest ->
  exists st',
    unload_module E m st = (0, st')
    /\ modules st' = rest
    /\ callbacks st' = filter (fun h => ~ owned_by m h) (callbacks st).
Proof.
  intros Hmods.
  destruct (unload_module_registered E m st)
    as (st' & pre & x & rest' & tr & Hrun & Hm & Hx & Hpre & Hm' & Hc & _).
  { unfold registered. rewrite Hmods. by left. }
  assert (pre = []) as ->.
  { destruct pre as [|y pre]; [done|]. rewrite Hmods in Hm.
    injection Hm as <- _. by inversion Hpre. }
  rewrite Hmods in Hm. injection Hm as <- <-. by exists st'.
Qed.

Lemma filter_all {A : Type} (P : A -> Prop) `{!forall x, Decision (P x)}
    (xs : list A) :
  (forall a, P a) -> filter P xs = xs.
Proof.
  intros HP. induction xs as [|a xs IH]; [done|].
  rewrite filter_cons_True by done. by rewrite IH.
Qed.

Lemma modulebase_shutdown_loop_callbacks fuel n st st' :
  modulebase_shutdown_loop E fuel n st = Some st' ->
  callbacks st'
  = filter (fun h => ~ registered (owner h) (modules st)) (callbacks st).
Proof.
  revert st. induction n as [|n IH]; intros st.
  - simpl. destruct (modules st) eqn:Hm; [|done]. intros [= <-].
    symmetry. apply filter_all. intros h. unfold registered.
    rewrite Exists_nil. tauto.
  - destruct (modules st) as [|m rest] eqn:Hm.
    + rewrite modulebase_shutdown_loop_done by done. intros [= <-].
      symmetry. apply filter_all. intros h. unfold registered.
      rewrite Exists_nil. tauto.
    + destruct (process_message_queue E fuel st) as [st1|] eqn:Hd;
        [|cbn [modulebase_shutdown_loop]; rewrite Hm, Hd; done].
      rewrite (modulebase_shutdown_loop_unfold E fuel n m rest st st1) by done.
      apply process_message_queue_step in Hd as (_ & Hm1 & Hc1 & _).
      destruct (unload_module_head_callbacks m rest st1)
        as (st2 & Hu & Hm2 & Hc2); [congruence|].
      rewrite Hu. simpl. intros Hrun. apply IH in Hrun.
      rewrite Hrun, Hm2, Hc2, Hc1, list_filter_filter.
      apply list_filter_iff. intros h. unfold registered, owned_by.
      rewrite Exists_cons. split.
      * intros [H1 H2] [H3|H3]; [by apply H2|by apply H1].
      * intros H. split; intros H'; apply H; [by right|by left].
Qed.

End ShutdownMore.

(** X16. When [modulebase_shutdown] returns, the handlers left in the
    registry are those whose owner was not in the module registry at the
    start; if every handler was owned by a loaded module, the handler
    registry is empty. *)
Theorem shutdown_removes_handlers {world : Type} (E : env world)
    (fuel : nat) (st st' : state world) :
  modulebase_shutdown E fuel st = Some st' ->
  callbacks st'
  = filter (fun h => ~ registered (owner h) (modules st)) (callbacks st)
  /\ (handlers_owned st -> callbacks st' = []).
Proof.
  unfold modulebase_shutdown. intros Hrun.
  destruct (modulebase_shutdown_loop E fuel fuel st) as [st1|] eqn:Hloop;
    [|done].
  simpl in Hrun. apply modulebase_shutdown_loop_callbacks in Hloop.
  apply process_message_queue_step in Hrun as (_ & _ & Hc & _).
  rewrite Hc, Hloop. split; [done|].
  unfold handlers_owned. generalize (callbacks st).
  induction 1 as [|h l Hh _ IH]; [done|].
  rewrite filter_cons_False by tauto. exact IH.
Qed.

Lemma shutdown_removes_handlers_witness :
  modulebase_shutdown (Example.E None) 4 Example.loaded = Some Example.shut
  /\ callbacks Example.shut
     = filter (fun h => ~ registered (owner h) (modules Example.loaded))
         (callbacks Example.loaded)
  /\ callbacks Example.shut = [].
Proof.
  assert (H : modulebase_shutdown (Example.E None) 4 Example.loaded
              = Some Example.shut) by (vm_compute; reflexivity).
  split; [exact H|].
  split; [exact (proj1 (shutdown_removes_handlers (Example.E None) 4
                          Example.loaded Example.shut H))|].
  vm_compute. reflexivity.
Defined.

(** X17. Loading and unloading keep the order of the handler registry:
    if it is ordered by message type ascending and, within a type, by
    owner priority ascending, it is so after [load_module], after
    [unload_module] and after [modulebase_init]. *)
Theorem load_unload_keep_registry_ascending {world : Type} (E : env world)
    (st : state world) :
  StronglySorted registry_ascending (callbacks st) ->
  (forall filename prio,
     StronglySorted registry_ascending
       (callbacks (snd (load_module E filename prio st))))
  /\ (forall m,
        StronglySorted registry_ascending
          (callbacks (snd (unload_module E m st))))
  /\ (forall module_names,
        StronglySorted registry_ascending
          (callbacks (snd (modulebase_init E module_names st)))).
Proof.
  assert (Hload : forall (s : state world) filename prio,
             StronglySorted registry_ascending (callbacks s) ->
             StronglySorted registry_ascending
               (callbacks (snd (load_module E filename prio s)))).
  { intros s filename prio Hs.
    destruct (load_module_cases E filename prio s)
      as (_ & [(_ & _ & Hc)|(a & h & s4 & _ & _ & Hc4 & _ & Hc)]).
    - destruct Hc as [->|[m ->]]; [done|]. by apply StronglySorted_filter.
    - simpl in Hc. rewrite Hc. apply add_msghandlers_loop_ascending.
      by rewrite Hc4. }
  intros Hs. split; [intros; by apply Hload|]. split.
  - intros m. destruct (decide (registered m (modules st))) as [Hreg|Hreg].
    + destruct (unload_module_registered E m st Hreg)
        as (st' & pre & x & rest & tr & -> & _ & _ & _ & _ & Hc & _).
      simpl. rewrite Hc. by apply StronglySorted_filter.
    + by rewrite unload_module_not_registered.
  - intros names. revert st Hs.
    induction names as [|n names IH]; intros st Hs; simpl; [done|].
    pose proof (Hload st n 0 Hs) as Hs1.
    destruct (load_module E n 0 st) as [[m|] st1]; simpl in *; [|done].
    by apply IH.
Qed.

Lemma load_unload_keep_registry_ascending_witness :
  StronglySorted registry_ascending (callbacks Example.loadedA)
  /\ StronglySorted registry_ascending
       (callbacks
          (snd (load_module (Example.E None) "libb.so" 9 Example.loadedA)))
  /\ StronglySorted registry_ascending
       (callbacks
          (snd (unload_module (Example.E None) Example.modA
                  Example.loadedA))).
Proof.
  assert (H : StronglySorted registry_ascending (callbacks Example.loadedA)).
  { assert (callbacks Example.loadedA = [Example.hA]) as ->
      by (vm_compute; reflexivity).
    repeat constructor. }
  split; [exact H|].
  destruct (load_unload_keep_registry_ascending (Example.E None)
              Example.loadedA H) as (Hl & Hu & _).
  split; [exact (Hl "libb.so" 9)|exact (Hu Example.modA)].
Defined.

(** X18. The addresses of the modules in the registry stay distinct:
    unloading keeps them so, and so does loading, as long as the
    allocator hands out for the new module record an address that no
    loaded module has. *)
Theorem module_addresses_stay_distinct {world : Type} (E : env world)
    (st : state world) :
  NoDup (addr <$> modules st) ->
  (forall m, NoDup (addr <$> modules (snd (unload_module E m st))))
  /\ (forall filename prio,
        match fst (load_module E filename prio st) with
        | Some m =>
            addr m ∉ addr <$> modules st ->
            NoDup (addr <$> modules (snd (load_module E filename prio st)))
        | None =>
            NoDup (addr <$> modules (snd (load_module E filename prio st)))
        end).
Proof.
  intros Hnd. split; [intros m; by apply unload_module_NoDup|].
  intros filename prio.
  pose proof (load_module_modules E filename prio st) as Hm.
  destruct (load_module E filename prio st) as [[m|] st'] eqn:Hload;
    simpl in *.
  - intros Hfresh. by eapply load_module_NoDup.
  - by rewrite Hm.
Qed.

Lemma module_addresses_stay_distinct_witness :
  NoDup (addr <$> modules Example.loadedA)
  /\ fst (load_module (Example.E None) "libb.so" 9 Example.loadedA)
     = Some Example.modB
  /\ (addr Example.modB ∉ addr <$> modules Example.loadedA)
  /\ NoDup (addr <$> modules
              (snd (load_module (Example.E None) "libb.so" 9
                      Example.loadedA))).
Proof.
  assert (Hmods : modules Example.loadedA = [Example.modA])
    by (vm_compute; reflexivity).
  assert (H : NoDup (addr <$> modules Example.loadedA)).
  { rewrite Hmods. apply NoDup_singleton. }
  assert (Hload : fst (load_module (Example.E None) "libb.so" 9
                         Example.loadedA) = Some Example.modB)
    by (vm_compute; reflexivity).
  assert (Hfresh : addr Example.modB ∉ addr <$> modules Example.loadedA).
  { rewrite Hmods. simpl. rewrite list_elem_of_singleton. discriminate. }
  split; [exact H|]. split; [exact Hload|]. split; [exact Hfresh|].
  pose proof (proj2 (module_addresses_stay_distinct (Example.E None)
                       Example.loadedA H) "libb.so" 9) as Hx.
  rewrite Hload in Hx. exact (Hx Hfresh).
Defined.

(** ** The dispatch context *)

Section ContextMore.
Context {world : Type} (E : env world).
Implicit Types (st : state world) (m : module_t).

Lemma context_kept_refl st : context_kept st st.
Proof. by left. Qed.

Lemma context_kept_trans st1 st2 st3 :
  context_kept st1 st2 -> context_kept st2 st3 -> context_kept st1 st3.
Proof. unfold context_kept. intros [H1|H1] [H2|H2]; rewrite ?H2; auto. Qed.

Lemma handle_message_node_context h sender recipient msg st :
  context_kept st (handle_message_node E h sender recipient msg st).
Proof.
  unfold handle_message_node.
  destruct (negb (callback h =? 0)%N); [|by left].
  destruct (negb _ || _); [|by left].
  destruct (_ && _); [by right|by left].
Qed.

Lemma handle_message_loop_context node sender recipient msg st :
  context_kept st (handle_message_loop E node sender recipient msg st).
Proof.
  revert st. induction node as [|h node IH]; intros st.
  - rewrite handle_message_loop_nil. apply context_kept_refl.
  - rewrite handle_message_loop_cons.
    destruct (msg_comparator h (dsmemsg_id msg) =? 0); [|apply IH].
    eapply context_kept_trans; [apply handle_message_node_context|apply IH].
Qed.

Lemma process_message_queue_context fuel st st' :
  process_message_queue E fuel st = Some st' -> context_kept st st'.
Proof.
  revert st. induction fuel as [|fuel IH]; intros st.
  - simpl. destruct (message_queue st); [|done]. intros [= <-].
    apply context_kept_refl.
  - destruct (message_queue st) as [|front rest] eqn:Hq.
    + rewrite process_message_queue_empty by done. intros [= <-].
      apply context_kept_refl.
    + rewrite (process_message_queue_unfold E fuel front rest st Hq).
      intros Hrun. apply IH in Hrun.
      eapply context_kept_trans; [|exact Hrun].
      unfold handle_message.
      eapply context_kept_trans; [|apply handle_message_loop_context].
      by left.
Qed.

Lemma unload_module_context m st :
  context_kept st (snd (unload_module E m st)).
Proof.
  unfold unload_module.
  destruct (g_slist_find module_eqb (modules st) m); [by left|].
  destruct (remove_msghandlers_spec m st) as (_ & _ & _ & _ & Hh & _).
  destruct (handle m); simpl; [by right|]. left. exact Hh.
Qed.

Lemma modulebase_shutdown_loop_context fuel n st st' :
  modulebase_shutdown_loop E fuel n st = Some st' -> context_kept st st'.
Proof.
  revert st. induction n as [|n IH]; intros st.
  - simpl. destruct (modules st); [|done]. intros [= <-].
    apply context_kept_refl.
  - destruct (modules st) as [|m rest] eqn:Hm.
    + rewrite modulebase_shutdown_loop_done by done. intros [= <-].
      apply context_kept_refl.
    + destruct (process_message_queue E fuel st) as [st1|] eqn:Hd;
        [|cbn [modulebase_shutdown_loop]; rewrite Hm, Hd; done].
      rewrite (modulebase_shutdown_loop_unfold E fuel n m rest st st1) by done.
      intros Hrun. apply IH in Hrun.
      eapply context_kept_trans; [by eapply process_message_queue_context|].
      eapply context_kept_trans; [apply unload_module_context|exact Hrun].
Qed.

Lemma modulebase_init_context names st :
  context_kept st (snd (modulebase_init E names st)).
Proof.
  revert st. induction names as [|n names IH]; intros st; simpl.
  - apply context_kept_refl.
  - destruct (load_module_cases E n 0 st) as (Hh & _).
    destruct (load_module E n 0 st) as [[m|] st1]; simpl in *.
    + eapply context_kept_trans; [exact Hh|apply IH].
    + exact Hh.
Qed.

End ContextMore.

(** X19. The currently handling module is set only while plugin code
    runs: if none is set before, none is set after a drain, a load, an
    unload, the start-up or the shutdown. *)
Theorem dispatch_context_cleared {world : Type} (E : env world)
    (st : state world) :
  currently_handling_module st = None ->
  (forall fuel st', process_message_queue E fuel st = Some st' ->
                    currently_handling_module st' = None)
  /\ (forall filename prio,
        currently_handling_module (snd (load_module E filename prio st))
        = None)
  /\ (forall m,
        currently_handling_module (snd (unload_module E m st)) = None)
  /\ (forall module_names,
        currently_handling_module (snd (modulebase_init E module_names st))
        = None)
  /\ (forall fuel st', modulebase_shutdown E fuel st = Some st' ->
                       currently_handling_module st' = None).
Proof.
  intros Hnone.
  assert (Hk : forall st' : state world,
             context_kept st st' -> currently_handling_module st' = None).
  { intros st' [H|H]; congruence. }
  split; [|split; [|split; [|split]]].
  - intros fuel st' Hrun. by eapply Hk, process_message_queue_context.
  - intros filename prio. apply Hk.
    by destruct (load_module_cases E filename prio st) as (Hh & _).
  - intros m. apply Hk, unload_module_context.
  - intros names. apply Hk, modulebase_init_context.
  - intros fuel st'. unfold modulebase_shutdown.
    destruct (modulebase_shutdown_loop E fuel fuel st) as [st1|] eqn:Hloop;
      [|done].
    simpl. intros Hrun. apply Hk.
    eapply context_kept_trans; [by eapply modulebase_shutdown_loop_context|].
    by eapply process_message_queue_context.
Qed.

Lemma dispatch_context_cleared_witness :
  currently_handling_module Example.cascade_start = None
  /\ process_message_queue (Example.E None) 4 Example.cascade_start
     = Some Example.cascade_end
  /\ currently_handling_module Example.cascade_end = None.
Proof.
  assert (H : currently_handling_module Example.cascade_start = None)
    by (vm_compute; reflexivity).
  assert (Hrun : process_message_queue (Example.E None) 4
                   Example.cascade_start = Some Example.cascade_end)
    by (vm_compute; reflexivity).
  split; [exact H|]. split; [exact Hrun|].
  exact (proj1 (dispatch_context_cleared (Example.E None)
                  Example.cascade_start H) 4%nat Example.cascade_end Hrun).
Defined.

(** ** A drain that returns *)

Section QuietMore.
Context {world : Type} (E : env world).
Implicit Types (st : state world) (h : msg_handler_info_t).



End QuietMore.



(** ** Endpoints *)

Lemma endpoint_same_iff (x y : endpoint_t) :
  endpoint_same (Some x) (Some y) = true
  <-> (exists m m', module x = Some m /\ module y = Some m'
                    /\ addr m = addr m')
      \/ (exists c, conn x = Some c /\ conn y = Some c).
Proof.
  destruct x as [xm xc], y as [ym yc]. simpl. split.
  - destruct xm as [xm|], ym as [ym|], xc as [xc|], yc as [yc|]; simpl;
      unfold module_eqb;
      try (destruct (N.eqb_spec (addr xm) (addr ym)));
      try (destruct (N.eqb_spec xc yc)); simpl; try subst;
      try discriminate; intros _;
      first [ left; eexists _, _; by repeat split | right; by eexists ].
  - intros [(m & m' & -> & -> & Hm)|(c & -> & ->)]; simpl.
    + unfold module_eqb. apply N.eqb_eq in Hm. by rewrite Hm.
    + rewrite N.eqb_refl. by destruct (_ && _).
Qed.

(** X21. [endpoint_copy] returns NULL exactly when the endpoint is NULL
    or the allocation fails; otherwise the copy denotes the same module
    and connection as the original, so that it is the same endpoint
    whenever the original is the same as itself. Nothing else of the
    state changes. *)
Theorem endpoint_copy_result {world : Type} (E : env world)
    (endpoint : option endpoint_t) (st : state world) :
  let r := endpoint_copy E endpoint st in
  (fst r = None <-> endpoint = None \/ malloc E (mallocs st) = None)
  /\ (forall c, fst r = Some c -> endpoint = Some c)
  /\ (is_Some (fst r) ->
      endpoint_same (fst r) endpoint = endpoint_same endpoint endpoint)
  /\ modules (snd r) = modules st
  /\ callbacks (snd r) = callbacks st
  /\ message_queue (snd r) = message_queue st
  /\ trace (snd r) = trace st.
Proof.
  unfold endpoint_copy, do_malloc.
  destruct endpoint as [[em ec]|]; simpl.
  - destruct (malloc E (mallocs st)) eqn:Hm; simpl.
    + split; [split; [discriminate|intros [H|H]; discriminate H]|].
      split; [by intros c [= <-]|]. by repeat split.
    + split; [split; [by right|done]|].
      split; [discriminate|]. split; [by intros [? ?]|]. by repeat split.
  - split; [split; [by left|done]|].
    split; [discriminate|]. split; [by intros [? ?]|]. by repeat split.
Qed.

(** X22. [endpoint_same] is symmetric, it is false as soon as one of its
    arguments is NULL, and two endpoints are the same exactly when they
    share a module that is not NULL or a connection that is not NULL. *)
Theorem endpoint_same_symmetric (a b : option endpoint_t) :
  endpoint_same a b = endpoint_same b a
  /\ endpoint_same None b = false
  /\ endpoint_same a None = false
  /\ forall x y,
       endpoint_same (Some x) (Some y) = true
       <-> (exists m m', module x = Some m /\ module y = Some m'
                         /\ addr m = addr m')
           \/ (exists c, conn x = Some c /\ conn y = Some c).
Proof.
  split; [|split; [|split]].
  - destruct a as [x|], b as [y|]; try reflexivity.
    apply Bool.eq_true_iff_eq. rewrite !endpoint_same_iff.
    split; (intros [(m & m' & H1 & H2 & H3)|(c & H1 & H2)];
            [left; by exists m', m|right; by exists c]).
  - reflexivity.
  - by destruct a.
  - apply endpoint_same_iff.
Qed.

(** X23. On endpoints as the module base builds them, denoting at most
    one thing, [endpoint_same] is transitive. *)
Theorem endpoint_same_transitive (a b c : endpoint_t) :
  endpoint_wf b ->
  endpoint_same (Some a) (Some b) = true ->
  endpoint_same (Some b) (Some c) = true ->
  endpoint_same (Some a) (Some c) = true.
Proof.
  intros Hwf Hab Hbc. apply endpoint_same_iff in Hab, Hbc.
  apply endpoint_same_iff.
  destruct Hwf as [Hwf|Hwf];
    destruct Hab as [(m1 & m2 & H1 & H2 & H3)|(c1 & H1 & H2)];
    destruct Hbc as [(m3 & m4 & H4 & H5 & H6)|(c2 & H4 & H5)];
    try congruence.
  - right. exists c1. split; [done|congruence].
  - left. exists m1, m4. repeat split; [done..|congruence].
Qed.

Lemma endpoint_same_transitive_witness :
  let a := {| module := Some Example.modA; conn := None |} in
  let b := {| module := Some Example.modA; conn := None |} in
  let c := {| module := Some Example.modA; conn := None |} in
  endpoint_wf b
  /\ endpoint_same (Some a) (Some b) = true
  /\ endpoint_same (Some b) (Some c) = true
  /\ endpoint_same (Some a) (Some c) = true.
Proof.
  intros a b c.
  assert (H1 : endpoint_wf b) by (right; reflexivity).
  assert (H2 : endpoint_same (Some a) (Some b) = true) by reflexivity.
  assert (H3 : endpoint_same (Some b) (Some c) = true) by reflexivity.
  split; [exact H1|]. split; [exact H2|]. split; [exact H3|].
  exact (endpoint_same_transitive a b c H1 H2 H3).
Defined.

(** With an endpoint that names both a module and a connection in the
    middle, [endpoint_same] is not transitive. *)
Example endpoint_same_not_transitive_in_general :
  let a := {| module := Some Example.modA; conn := None |} in
  let b := {| module := Some Example.modA; conn := Some 7%N |} in
  let c := {| module := None; conn := Some 7%N |} in
  endpoint_same (Some a) (Some b) = true
  /\ endpoint_same (Some b) (Some c) = true
  /\ endpoint_same (Some a) (Some c) = false.
Proof. by vm_compute. Qed.

(** X24. Endpoints that are the same have the same credentials: for
    endpoints denoting at most one thing, [endpoint_ucred] returns the
    same credentials for both when [endpoint_same] holds; a module
    endpoint has the credentials of the daemon, and a NULL or empty
    endpoint has the credentials with process 0 and the user and group
    [(uid_t)-1]. *)
Theorem same_endpoints_same_credentials (self : ucred)
    (dsmesock_getucred : N -> option ucred) (a b : endpoint_t) :
  endpoint_wf a -> endpoint_wf b ->
  endpoint_same (Some a) (Some b) = true ->
  endpoint_ucred self dsmesock_getucred (Some a)
  = endpoint_ucred self dsmesock_getucred (Some b)
  /\ (is_Some (module a) ->
      endpoint_ucred self dsmesock_getucred (Some a) = self)
  /\ endpoint_ucred self dsmesock_getucred None
     = {| pid := 0; uid := 4294967295; gid := 4294967295 |}
  /\ endpoint_ucred self dsmesock_getucred
       (Some {| module := None; conn := None |})
     = {| pid := 0; uid := 4294967295; gid := 4294967295 |}.
Proof.
  intros Ha Hb Hsame. apply endpoint_same_iff in Hsame.
  split; [|split; [|split; reflexivity]].
  - unfold endpoint_ucred.
    destruct Hsame as [(m & m' & H1 & H2 & _)|(c & H1 & H2)].
    + by rewrite H1, H2.
    + assert (module a = None) as Hma by (destruct Ha; congruence).
      assert (module b = None) as Hmb by (destruct Hb; congruence).
      by rewrite Hma, Hmb, H1, H2.
  - intros [m Hm]. unfold endpoint_ucred. by rewrite Hm.
Qed.

Lemma same_endpoints_same_credentials_witness :
  let self := {| pid := 1; uid := 0; gid := 0 |} in
  let peers := fun c : N =>
    if (c =? 7)%N then Some {| pid := 200; uid := 1000; gid := 100 |}
    else None in
  let a := {| module := None; conn := Some 7%N |} in
  endpoint_wf a
  /\ endpoint_same (Some a) (Some a) = true
  /\ endpoint_ucred self peers (Some a)
     = {| pid := 200; uid := 1000; gid := 100 |}
  /\ endpoint_ucred self peers (Some a) = endpoint_ucred self peers (Some a).
Proof.
  intros self peers a.
  assert (H1 : endpoint_wf a) by (left; reflexivity).
  assert (H2 : endpoint_same (Some a) (Some a) = true) by reflexivity.
  split; [exact H1|]. split; [exact H2|]. split; [reflexivity|].
  exact (proj1 (same_endpoints_same_credentials self peers a a H1 H1 H2)).
Defined.

(** ** More on dispatch and queueing *)

(** X25. [handle_message] calls the handlers of a message in the order
    of the registry, which is by ascending owner priority: in a registry
    kept by [add_single_handler], a handler is never called after a
    handler of a greater owner priority. *)
Theorem dispatch_calls_in_ascending_priority {world : Type} (E : env world)
    (sender : endpoint_t) (recipient : option module_t)
    (msg : dsmemsg_generic_t) (st : state world) :
  u32 (type_ msg) ->
  Forall (fun h => u32 (msg_type h)) (callbacks st) ->
  StronglySorted registry_ascending (callbacks st) ->
  exists tr,
    trace (handle_message E sender recipient msg st) = trace st ++ tr
    /\ StronglySorted
         (fun c1 c2 => priority (owner c1.1.1) <= priority (owner c2.1.1))
         (invoked_of tr).
Proof.
  intros Hm Hu Hs.
  destruct (handle_message_step E sender recipient msg st)
    as (tr & Ht & _ & Hi).
  exists (EvHandle {| from := sender; to := recipient; data := msg |} :: tr).
  split; [exact Ht|].
  assert (invoked_of
            (EvHandle {| from := sender; to := recipient; data := msg |} :: tr)
          = invoked_of tr) as -> by done.
  rewrite Hi. clear Ht Hi.
  induction Hs as [|h l Hl IH Hh]; [constructor|].
  apply Forall_cons in Hu as [Hu1 Hu2].
  destruct (decide (msg_comparator h (dsmemsg_id msg) = 0
                    /\ node_delivers recipient msg h)) as [Hcd|Hno].
  - rewrite filter_cons_True by done. rewrite fmap_cons.
    destruct Hcd as [Hc _].
    constructor; [by apply IH|].
    apply Forall_fmap, Forall_forall. intros x Hx. simpl.
    apply list_elem_of_filter in Hx as [[Hcx _] Hx].
    rewrite Forall_forall in Hh, Hu2.
    apply msg_comparator_zero in Hc; [|done..].
    apply msg_comparator_zero in Hcx; [|by apply Hu2|done].
    specialize (Hh x Hx). unfold registry_ascending in Hh. lia.
  - rewrite filter_cons_False by done. by apply IH.
Qed.

Lemma dispatch_calls_in_ascending_priority_witness :
  u32 (type_ Example.msg10)
  /\ Forall (fun h => u32 (msg_type h)) (callbacks Example.loaded)
  /\ StronglySorted registry_ascending (callbacks Example.loaded)
  /\ exists tr,
       trace (handle_message (Example.E None) Example.nobody None
                Example.msg10 Example.loaded)
       = trace Example.loaded ++ tr
       /\ StronglySorted
            (fun c1 c2 => priority (owner c1.1.1) <= priority (owner c2.1.1))
            (invoked_of tr).
Proof.
  assert (Hcb : callbacks Example.loaded
                = [Example.hA; Example.hB; Example.hB'])
    by (vm_compute; reflexivity).
  assert (H1 : u32 (type_ Example.msg10)) by (unfold u32; simpl; lia).
  assert (H2 : Forall (fun h => u32 (msg_type h)) (callbacks Example.loaded)).
  { rewrite Hcb. repeat constructor; unfold u32; simpl; lia. }
  assert (H3 : StronglySorted registry_ascending (callbacks Example.loaded)).
  { rewrite Hcb. repeat constructor; unfold registry_ascending; simpl; lia. }
  split; [exact H1|]. split; [exact H2|]. split; [exact H3|].
  exact (dispatch_calls_in_ascending_priority (Example.E None) Example.nobody
           None Example.msg10 Example.loaded H1 H2 H3).
Defined.

(** X26. [broadcast_internally] and [broadcast_internally_from_socket]
    stay internal: all they do is queue at most one broadcast envelope,
    in the name of the currently handling module for the first and of
    the given connection for the second; the socket layer is not
    called. *)
Theorem internal_broadcasts_stay_internal {world : Type} (E : env world)
    (msg : option dsmemsg_generic_t) (c : option N) (st : state world) :
  (exists tr,
     trace (broadcast_internally E msg st) = trace st ++ tr
     /\ message_queue (broadcast_internally E msg st)
        = message_queue st ++ queued_of tr
     /\ Forall (fun e => exists q, e = EvQueued q) tr
     /\ (length tr <= 1)%nat
     /\ Forall (fun q =>
                  to q = None
                  /\ from q = {| module := currently_handling_module st;
                                 conn := None |}) (queued_of tr))
  /\ (exists tr,
        trace (broadcast_internally_from_socket E msg c st) = trace st ++ tr
        /\ message_queue (broadcast_internally_from_socket E msg c st)
           = message_queue st ++ queued_of tr
        /\ Forall (fun e => exists q, e = EvQueued q) tr
        /\ (length tr <= 1)%nat
        /\ Forall (fun q =>
                     to q = None
                     /\ from q = {| module := None; conn := c |})
             (queued_of tr)).
Proof.
  unfold broadcast_internally, broadcast_internally_from_socket.
  split.
  all: match goal with
       | |- context [queue_message ?e ?s ?r ?ms ?z ?x ?st0] =>
           destruct (queue_message_cases e s r ms z x st0)
             as [[Hq Ht]|(genmsg & q & _ & Hqeq & Hq & Ht)]
       end.
  all: rewrite Hq, Ht.
  all: first [ exists []; rewrite !app_nil_r;
               split; [done|]; split; [done|]; split; [constructor|];
               split; [simpl; lia|constructor]
             | exists [EvQueued q]; subst q;
               split; [done|]; split; [done|];
               split; [repeat constructor; by eexists|];
               split; [simpl; lia|by repeat constructor] ].
Qed.

(** X27. What a module queues from its initializer or its finalizer is
    sent in its name: no envelope queued while [load_module] runs
    [module_init], or while [unload_module] runs [module_fini], names
    another module as its sender; a module without the entry point
    queues nothing. *)
Theorem lifecycle_messages_attributed {world : Type} (E : env world)
    (m : module_t) (h : N) (st : state world) :
  (exists tr,
     trace (load_module_init E m h st) = trace st ++ tr
     /\ message_queue (load_module_init E m h st)
        = message_queue st ++ queued_of tr
     /\ attributed_to m (queued_of tr)
     /\ (dlsym_module_init E h = None -> tr = []))
  /\ (exists tr,
        trace (snd (unload_module E m st)) = trace st ++ tr
        /\ message_queue (snd (unload_module E m st))
           = message_queue st ++ queued_of tr
        /\ attributed_to m (queued_of tr)
        /\ (handle m ≫= dlsym_module_fini E = None -> queued_of tr = [])).
Proof.
  split.
  - unfold load_module_init.
    destruct (dlsym_module_init E h) as [initfunc|].
    + set (st1 := emit (EvModuleInit m)
                    (set_currently_handling_module (Some m) st)).
      destruct (run_plugin_step E (initfunc m) st1)
        as (tr & Ht & _ & Hq & _).
      pose proof (run_plugin_senders E _ st1 tr Ht) as Hsend.
      exists (EvModuleInit m :: tr). simpl.
      split; [rewrite Ht; simpl; by rewrite <- app_assoc|].
      split; [exact Hq|]. split; [|done].
      unfold attributed_to. eapply Forall_impl; [exact Hsend|].
      intros q Hq' x Hx. specialize (Hq' x Hx). simpl in Hq'. congruence.
    + exists []. rewrite !app_nil_r. repeat split. constructor.
  - unfold unload_module.
    destruct (g_slist_find module_eqb (modules st) m) as [|x rest].
    { exists []. simpl. rewrite !app_nil_r. repeat split. constructor. }
    destruct (remove_msghandlers_spec m st)
      as (_ & Ht1 & _ & Hq1 & _).
    destruct (fmap_free_handler_silent (filter (owned_by m) (callbacks st)))
      as (Hfq & _).
    set (st1 := remove_msghandlers m st) in *.
    destruct (handle m) as [hm|]; simpl.
    + destruct (dlsym_module_fini E hm) as [finifunc|]; simpl.
      * set (st2 := emit (EvModuleFini m)
                      (set_currently_handling_module (Some m) st1)).
        destruct (run_plugin_step E finifunc st2) as (tr & Ht & _ & Hq & _).
        pose proof (run_plugin_senders E _ st2 tr Ht) as Hsend.
        exists ((EvFreeHandler <$> filter (owned_by m) (callbacks st))
                ++ [EvModuleFini m] ++ tr ++ [EvDlclose hm; EvFreeModule m]).
        rewrite Ht, Hq. simpl. rewrite Ht1, Hq1.
        assert (queued_of
                  ((EvFreeHandler <$> filter (owned_by m) (callbacks st))
                   ++ EvModuleFini m :: tr
                   ++ [EvDlclose hm; EvFreeModule m]) = queued_of tr) as ->.
        { rewrite queued_of_app, Hfq. simpl.
          change (EvModuleFini m :: tr ++ [EvDlclose hm; EvFreeModule m])
            with ([EvModuleFini m] ++ tr ++ [EvDlclose hm; EvFreeModule m]).
          rewrite !queued_of_app. simpl. by rewrite app_nil_r. }
        split; [by rewrite <- !app_assoc|]. split; [done|]. split; [|done].
        unfold attributed_to. eapply Forall_impl; [exact Hsend|].
        intros q Hq' y Hy. specialize (Hq' y Hy). simpl in Hq'. congruence.
      * exists ((EvFreeHandler <$> filter (owned_by m) (callbacks st))
                ++ [EvDlclose hm; EvFreeModule m]).
        rewrite Ht1, Hq1, !queued_of_app, Hfq. simpl.
        rewrite app_nil_r, <- !app_assoc. repeat split. constructor.
    + exists ((EvFreeHandler <$> filter (owned_by m) (callbacks st))
              ++ [EvFreeModule m]).
      rewrite Ht1, Hq1, !queued_of_app, Hfq. simpl.
      rewrite app_nil_r, <- !app_assoc. repeat split. constructor.
Qed.

(** In the concrete daemon the broadcast of the finalizer of [liba.so]
    is queued in the name of [liba.so]. *)
Example finalizer_broadcast_attributed :
  from <$> message_queue
             (snd (unload_module (Example.E None) Example.modA
                     Example.loaded))
  = [ {| module := Some Example.modA; conn := None |} ].
Proof. by vm_compute. Qed.
